(** * pyxem indexation generators: a shallow embedding and its properties

    The development follows [pyxem/generators/indexation_generator.py]:

    - [ProfileIndexationGenerator.index_peaks] (radial-magnitude matching),
    - [IndexationGenerator.correlate] (template matching over a navigation
      grid, with an optional mask),
    - [VectorIndexationGenerator.index_vectors] (vector matching).

    numpy's [float64] is Rocq's primitive binary64 [float]: [+], [-], [*],
    [/], [abs] and [<?] are the IEEE 754 operations numpy applies element by
    element, so a division by zero yields an infinity or a NaN (numpy's
    default error state only warns) and every comparison with a NaN is
    false. Python exceptions are values of [PyError] carried by [result]. *)

From Stdlib Require Import ZArith Floats Lia Bool Sorted.
From stdpp Require Import base list strings gmap sorting.

Set Warnings "-inexact-float".

Open Scope float_scope.

(** * Part I: definitions *)

(** ** IEEE 754 comparisons as a lexicographic order *)

(** The place of a value that is not a NaN in the order [SFcompare]
    decides: class first (negative infinity, negative, zero, positive,
    positive infinity), then exponent, then mantissa. Both zeros share a
    place. *)
Definition key (x : spec_float) : option (Z * Z * Z) :=
  match x with
  | S754_nan => None
  | S754_infinity true => Some (-2, 0, 0)%Z
  | S754_finite true m e => Some (-1, - e, Z.neg m)%Z
  | S754_zero _ => Some (0, 0, 0)%Z
  | S754_finite false m e => Some (1, e, Z.pos m)%Z
  | S754_infinity false => Some (2, 0, 0)%Z
  end.

Definition lex_lt (a b : Z * Z * Z) : Prop :=
  (a.1.1 < b.1.1 ∨ (a.1.1 = b.1.1 ∧
    (a.1.2 < b.1.2 ∨ (a.1.2 = b.1.2 ∧ a.2 < b.2))))%Z.

Definition lex_le (a b : Z * Z * Z) : Prop :=
  (a.1.1 < b.1.1 ∨ (a.1.1 = b.1.1 ∧
    (a.1.2 < b.1.2 ∨ (a.1.2 = b.1.2 ∧ a.2 <= b.2))))%Z.

Definition flt (x y : spec_float) : Prop :=
  ∃ a b, key x = Some a ∧ key y = Some b ∧ lex_lt a b.

Definition fle (x y : spec_float) : Prop :=
  ∃ a b, key x = Some a ∧ key y = Some b ∧ lex_le a b.


(** Values whose sign bit is clear (the NaN, which has no sign here,
    included): the values [abs] leaves as they are. *)
Definition sign_clear (y : spec_float) : Prop :=
  match y with
  | S754_zero false | S754_finite false _ _ | S754_infinity false
  | S754_nan => True
  | _ => False
  end.

(** ** Python results

    A call either returns a value or raises; [NameError] carries the name
    that the module's namespace does not bind. *)

Inductive PyError :=
| IndexError
| NameError (name : string)
| TypeError
| ValueError (msg : string).

Inductive result (A : Type) :=
| Ok (a : A)
| Raise (e : PyError).
Arguments Ok {A} a.
Arguments Raise {A} e.

#[global] Instance result_ret : MRet result := @Ok.
#[global] Instance result_bind : MBind result :=
  λ A B k r, match r with Ok a => k a | Raise e => Raise e end.
#[global] Instance result_fmap : FMap result :=
  λ A B f r, match r with Ok a => Ok (f a) | Raise e => Raise e end.

(** [arr[i]] on a sequence: [IndexError] out of range. *)
Definition getitem {A} (arr : list A) (i : nat) : result A :=
  match arr !! i with
  | Some x => Ok x
  | None => Raise IndexError
  end.

(** A [for] loop over a list of indices, threading the state the body
    updates; the first exception ends the loop. *)
Fixpoint for_range {S} (body : S → nat → result S) (st : S) (idx : list nat)
  : result S :=
  match idx with
  | [] => Ok st
  | i :: rest => st' ← body st i; for_range body st' rest
  end.

(** ** numpy *)

(** [np.where(mask)] on a one-dimensional boolean array: the positions of
    the true entries, in increasing order. *)
Fixpoint where_from (i : nat) (mask : list bool) : list nat :=
  match mask with
  | [] => []
  | b :: rest =>
      if b then i :: where_from (S i) rest else where_from (S i) rest
  end.

Definition np_where (mask : list bool) : list nat := where_from 0 mask.

(** [arr[idx]] with an index array: one element per index, [IndexError]
    when an index is out of bounds. *)
Fixpoint take_at {A} (arr : list A) (idx : list nat) : result (list A) :=
  match idx with
  | [] => Ok []
  | i :: rest => x ← getitem arr i; xs ← take_at arr rest; Ok (x :: xs)
  end.

(** An n-dimensional array: its shape and its buffer in C order. *)
Record ndarray := { shape : list nat; buffer : list float }.

Definition np_ones (shp : list nat) : ndarray :=
  {| shape := shp; buffer := replicate (foldr Nat.mul 1%nat shp) 1 |}.

(** ** hyperspy signals

    A signal holds one item per navigation position (in C order of the
    underlying array) and the calibrated navigation axes, listed as
    [axes_manager.navigation_axes] lists them: in the reverse of the
    array's order of dimensions (x before y). *)

Module Axis.
Record t := {
  name : string;
  scale : float;
  offset : float;
  units : string;
  size : nat
}.
End Axis.

Module Signal.
Record t (A : Type) := { navigation_axes : list Axis.t; data : list A }.
Arguments navigation_axes {A} _.
Arguments data {A} _.
Definition navigation_shape {A} (s : t A) : list nat :=
  Axis.size <$> navigation_axes s.
End Signal.

(** The calibration of an axis: what [transfer_navigation_axes] carries. *)
Definition calibration (a : Axis.t) : string * float * float * string :=
  (Axis.name a, Axis.scale a, Axis.offset a, Axis.units a).

(** The axis hyperspy gives a dimension of a bare array. *)
Definition default_axis (n : nat) : Axis.t :=
  {| Axis.name := "<undefined>"; Axis.scale := 1; Axis.offset := 0;
     Axis.units := "<undefined>"; Axis.size := n |}.

(** [k] consecutive chunks of [n] entries of a buffer. *)
Fixpoint chunks {A} (n k : nat) (buf : list A) : list (list A) :=
  match k with
  | O => []
  | S k' => take n buf :: chunks n k' (drop n buf)
  end.

(** [hs.signals.Signal1D(arr)]: the last dimension of [arr] is the signal
    dimension, the leading ones are navigation dimensions; the navigation
    axes list them in reverse, so an array of shape [(a, b, 1)] gives the
    navigation shape [(b, a)]. *)
Definition Signal1D (arr : ndarray) : Signal.t (list float) :=
  let nav := removelast (shape arr) in
  {| Signal.navigation_axes := default_axis <$> reverse nav;
     Signal.data := chunks (List.last (shape arr) 1%nat)
                           (foldr Nat.mul 1%nat nav) (buffer arr) |}.

(** ** The module's namespace

    Python resolves a global name when the statement that mentions it runs:
    first in the module's globals, then in the builtins. The globals of
    [indexation_generator] are the names its [import] statements and its
    three [class] statements bind; no builtin is called
    [TemplateMatchingResults] or [VectorMatchingResults]. *)

Inductive Global :=
| GModule
| GFunction
| GSignalClass.

Definition module_globals : gmap string Global :=
  list_to_map
    [ ("np", GModule); ("hs", GModule);
      ("acos", GFunction); ("cos", GFunction); ("sin", GFunction);
      ("pi", GFunction); ("radians", GFunction); ("degrees", GFunction);
      ("itertools", GModule);
      ("TemplateMatchingResults", GSignalClass);
      ("transfer_navigation_axes", GFunction);
      ("correlate_library", GFunction);
      ("index_magnitudes", GFunction);
      ("match_vectors", GFunction);
      ("IndexationGenerator", GSignalClass);
      ("ProfileIndexationGenerator", GSignalClass);
      ("VectorIndexationGenerator", GSignalClass) ].

Definition load_global (name : string) : result Global :=
  match module_globals !! name with
  | Some g => Ok g
  | None => Raise (NameError name)
  end.

(** Calling a signal class on a signal wraps it: data and axes are kept. *)
Definition construct {A} (cls : Global) (s : Signal.t A)
  : result (Signal.t A) :=
  match cls with
  | GSignalClass => Ok s
  | _ => Raise TypeError
  end.

(** ** Collaborators outside [indexation_generator.py] *)

(** A computation that logs events (here: calls of the scoring function)
    before it returns or raises. *)
Record traced (E A : Type) := Traced { events : list E; outcome : result A }.
Arguments Traced {E A} events outcome.
Arguments events {E A} _.
Arguments outcome {E A} _.

#[global] Instance traced_ret {E} : MRet (traced E) := λ A a, Traced [] (Ok a).
#[global] Instance traced_bind {E} : MBind (traced E) :=
  λ A B k t,
    match outcome t with
    | Ok a => Traced (events t ++ events (k a)) (outcome (k a))
    | Raise e => Traced (events t) (Raise e)
    end.

(** A step that logs nothing. *)
Definition quiet {E A} (r : result A) : traced E A := Traced [] r.

(** The events of a computation run at position [p]. *)
Definition at_position {E A} (p : nat) (t : traced E A) : traced (nat * E) A :=
  Traced ((λ ev, (p, ev)) <$> events t) (outcome t).

(** Modelled from the spec: [Signal.map] of hyperspy, the orchestrator of
    section 4.4, which is not part of the sources at hand. It drives the
    function over every navigation position in grid order and writes each
    result at its coordinate; the first exception aborts the whole call.
    The result is a new signal over the same grid, with the axes of a bare
    array. *)
Fixpoint map_positions {A B E} (f : A → traced E B) (p : nat)
  (items : list A) : traced (nat * E) (list B) :=
  match items with
  | [] => mret []
  | x :: rest =>
      y ← at_position p (f x);
      ys ← map_positions f (S p) rest;
      mret (y :: ys)
  end.

Definition signal_map {A B E} (f : A → traced E B) (signal : Signal.t A)
  : traced (nat * E) (Signal.t B) :=
  out ← map_positions f 0 (Signal.data signal);
  mret {| Signal.navigation_axes :=
            default_axis <$> Signal.navigation_shape signal;
          Signal.data := out |}.

(** Modelled from the spec: [Signal.map] with a signal-valued keyword
    argument (the mask), which is iterated alongside the signal. A mask
    whose navigation shape differs from the signal's is a configuration
    error (section 7). *)
Definition signal_map_with {A M B E} (f : A → M → traced E B)
  (signal : Signal.t A) (mask : Signal.t M) : traced (nat * E) (Signal.t B) :=
  if bool_decide (Signal.navigation_shape mask = Signal.navigation_shape signal
                  ∧ length (Signal.data mask) = length (Signal.data signal))
  then
    signal_map (λ xm, f xm.1 xm.2)
      {| Signal.navigation_axes := Signal.navigation_axes signal;
         Signal.data := zip (Signal.data signal) (Signal.data mask) |}
  else quiet (Raise (ValueError "mask shape does not match navigation shape")).

(** Modelled from the spec: [transfer_navigation_axes] of
    [pyxem.utils.sim_utils], which is not part of the sources at hand. It
    copies the calibration (scale, offset, units, name) of every navigation
    axis of the old signal to the new one. *)
Definition transfer_axis (new old : Axis.t) : Axis.t :=
  {| Axis.name := Axis.name old; Axis.scale := Axis.scale old;
     Axis.offset := Axis.offset old; Axis.units := Axis.units old;
     Axis.size := Axis.size new |}.

Definition transfer_navigation_axes {A B} (new_signal : Signal.t A)
  (old_signal : Signal.t B) : Signal.t A :=
  {| Signal.navigation_axes :=
       zip_with transfer_axis (Signal.navigation_axes new_signal)
                (Signal.navigation_axes old_signal)
       ++ drop (length (Signal.navigation_axes old_signal))
               (Signal.navigation_axes new_signal);
     Signal.data := Signal.data new_signal |}.

(** *** The template matcher *)

Definition Euler : Type := float * float * float.
Definition Pattern : Type := list (list float).

(** Phase identifier to templates, in the library's iteration order. *)
Definition DiffractionLibrary : Type := list (string * list (Euler * Pattern)).

Inductive PhaseLabel :=
| PhaseIndex (i : nat)
| PhaseKey (k : string).

Record MatchRecord := {
  phase : PhaseLabel;
  angles : Euler;
  score : float
}.

Definition zero_record : MatchRecord :=
  {| phase := PhaseIndex 0; angles := (0, 0, 0); score := 0 |}.

Definition placeholder (n_largest : nat) : list MatchRecord :=
  replicate n_largest zero_record.

(** A scoring call: which phase and which orientation was scored. *)
Definition ScoreCall : Type := nat * Euler.

Definition phase_label (keys : list string) (i : nat) : PhaseLabel :=
  match keys !! i with
  | Some k => PhaseKey k
  | None => PhaseIndex i
  end.

(** Stable insertion by descending score: a record goes before the first
    one whose score does not exceed its own. *)
Fixpoint insert_by_score (r : MatchRecord) (l : list MatchRecord)
  : list MatchRecord :=
  match l with
  | [] => [r]
  | x :: l' =>
      if score x <=? score r then r :: x :: l'
      else x :: insert_by_score r l'
  end.

Definition sort_by_score (l : list MatchRecord) : list MatchRecord :=
  foldr insert_by_score [] l.

Definition pad (n_largest : nat) (l : list MatchRecord) : list MatchRecord :=
  l ++ replicate (n_largest - length l) zero_record.

(** A mask item is the one-element array at a position; it disables the
    position when its element is zero (Python's [False]). *)
Definition mask_enabled (mask : list float) : result bool :=
  match mask with
  | [x] => Ok (negb (x =? 0))
  | _ => Raise (ValueError "mask item is not a single truth value")
  end.

Definition valid_configuration (library : DiffractionLibrary)
  (n_largest : nat) (keys : list string) : bool :=
  bool_decide (library ≠ [] ∧ 1 ≤ n_largest
               ∧ (keys = [] ∨ length keys = length library)).

Section TemplateMatcher.

(** The correlation score of a measured pattern against a simulated one;
    the spec leaves the measure open. *)
Variable correlation : Pattern → Pattern → float.

Definition candidates (image : Pattern) (library : DiffractionLibrary)
  (keys : list string) : list MatchRecord :=
  mjoin (imap (λ i entry,
                 (λ t, {| phase := phase_label keys i; angles := t.1;
                          score := correlation image t.2 |}) <$> entry.2)
              library).

Definition score_calls (library : DiffractionLibrary) : list ScoreCall :=
  mjoin (imap (λ i entry, (λ t, (i, t.1)) <$> entry.2) library).

(** Modelled from the spec: [correlate_library] of
    [pyxem.utils.indexation_utils], the TemplateMatcher of section 4.1,
    which is not part of the sources at hand. Configuration errors are
    fatal; a disabled position yields the placeholder without scoring; an
    enabled one scores every template of every phase, keeps the
    [n_largest] best by a stable descending sort and pads with
    zero-records. *)
Definition correlate_library (image : Pattern) (library : DiffractionLibrary)
  (n_largest : nat) (mask : list float) (keys : list string)
  : traced ScoreCall (list MatchRecord) :=
  if valid_configuration library n_largest keys then
    enabled ← quiet (mask_enabled mask);
    if enabled : bool then
      Traced (score_calls library)
             (Ok (pad n_largest
                    (take n_largest
                       (sort_by_score (candidates image library keys)))))
    else mret (placeholder n_largest)
  else quiet (Raise (ValueError "invalid configuration")).

End TemplateMatcher.

(** *** The vector matcher's data *)

Definition HKL : Type := Z * Z * Z.

Definition DiffractionVectorLibrary : Type :=
  list (string * list (float * list float * HKL)).

(** A ranked hypothesis: its phase, the number of measured vectors it
    explains and the accumulated residual. *)
Record VectorMatch := {
  vm_phase : PhaseLabel;
  vm_explained : nat;
  vm_residual : float
}.

(** ** [class IndexationGenerator] *)

Module IndexationGenerator.

Record t := {
  signal : Signal.t Pattern;
  library : DiffractionLibrary
}.

(** [hs.signals.Signal1D(np.ones((sig_shape[0], sig_shape[1], 1)))] *)
Definition default_mask (sig_shape : list nat) : result (Signal.t (list float)) :=
  _ ← load_global "hs";
  _ ← load_global "np";
  s0 ← getitem sig_shape 0;
  s1 ← getitem sig_shape 1;
  Ok (Signal1D (np_ones [s0; s1; 1%nat])).

Section Correlate.

(** What the global [correlate_library] is bound to. *)
Variable correlate_library :
  Pattern → DiffractionLibrary → nat → list float → list string →
  traced ScoreCall (list MatchRecord).

Definition correlate (self : t) (n_largest : nat) (keys : list string)
  (mask : option (Signal.t (list float)))
  : traced (nat * ScoreCall) (Signal.t (list MatchRecord)) :=
  mask ← quiet (match mask with
                | None => default_mask (Signal.navigation_shape (signal self))
                | Some m => Ok m
                end);
  _ ← quiet (load_global "correlate_library");
  matches ← signal_map_with
              (λ image m, correlate_library image (library self) n_largest m keys)
              (signal self) mask;
  cls ← quiet (load_global "TemplateMatchingResults");
  matching_results ← quiet (construct cls matches);
  _ ← quiet (load_global "transfer_navigation_axes");
  mret (transfer_navigation_axes matching_results (signal self)).

End Correlate.

Definition default_n_largest : nat := 5.

End IndexationGenerator.

(** ** [class ProfileIndexationGenerator] *)

Module ProfileSimulation.
Record t := { magnitudes : list float; hkls : list HKL }.
End ProfileSimulation.

(** [np.array((mags.data[i], np.array((hkls, diffs))))] *)
Record PeakIndexation := {
  peak_mag : float;
  peak_hkls : list HKL;
  peak_diffs : list float
}.

(** A slot of the object array [np.zeros(len(mags), dtype=object)]: the
    initial [0], or the indexation written to it. *)
Inductive PyObj :=
| ObjZero
| ObjPeak (p : PeakIndexation).

Module ProfileIndexationGenerator.

Record t := {
  mapping : bool;
  magnitudes : list float;
  simulation : ProfileSimulation.t
}.

Definition index_peaks (self : t) (tolerance : float) : result (list PyObj) :=
  let mags := magnitudes self in
  let simulation := simulation self in
  _ ← load_global "np";
  let sim_mags := ProfileSimulation.magnitudes simulation in
  let sim_hkls := ProfileSimulation.hkls simulation in
  let indexation := replicate (length mags) ObjZero in
  for_range
    (λ indexation i,
       m ← getitem mags i;
       let diff := (λ s, abs ((s - m) / m * 100)) <$> sim_mags in
       hkls ← take_at sim_hkls (np_where ((λ d, d <? tolerance) <$> diff));
       diffs ← take_at diff (np_where ((λ d, d <? tolerance) <$> diff));
       Ok (<[i := ObjPeak {| peak_mag := m; peak_hkls := hkls;
                             peak_diffs := diffs |}]> indexation))
    indexation (seq 0 (length mags)).

Definition default_tolerance : float := 0.1.

End ProfileIndexationGenerator.

(** ** [class VectorIndexationGenerator] *)

Module VectorIndexationGenerator.

Record t := {
  vectors : Signal.t (list (float * float));
  library : DiffractionVectorLibrary
}.

Section IndexVectors.

(** What the global [match_vectors] is bound to
    ([pyxem.utils.indexation_utils], not part of the sources at hand). *)
Variable match_vectors :
  list (float * float) → DiffractionVectorLibrary → float → float →
  list string → result (list VectorMatch).

Definition index_vectors (self : t) (mag_threshold angle_threshold : float)
  (keys : list string) : result (Signal.t (list VectorMatch)) :=
  _ ← load_global "match_vectors";
  indexation ←
    outcome (signal_map (E := Empty_set)
               (λ v, quiet (match_vectors v (library self) mag_threshold
                                          angle_threshold keys))
               (vectors self));
  cls ← load_global "VectorMatchingResults";
  indexation_results ← construct cls indexation;
  _ ← load_global "transfer_navigation_axes";
  Ok (transfer_navigation_axes indexation_results (vectors self)).

End IndexVectors.

End VectorIndexationGenerator.

(** ** Notions the statements use *)

(** [np.compress(mask, arr)]: the entries of [arr] at the true positions of
    [mask], in order. *)
Fixpoint np_compress {A} (mask : list bool) (arr : list A) : list A :=
  match mask, arr with
  | b :: mask', x :: arr' =>
      if b then x :: np_compress mask' arr' else np_compress mask' arr'
  | _, _ => []
  end.

(** The relative percent deviation as the code computes it. *)
Definition deviation (m sim_mag : float) : float :=
  abs ((sim_mag - m) / m * 100).

(** What one turn of the loop of [index_peaks] writes for magnitude [m]
    when both index operations succeed. *)
Definition indexed_peak (simulation : ProfileSimulation.t) (tolerance m : float)
  : PeakIndexation :=
  let diff := deviation m <$> ProfileSimulation.magnitudes simulation in
  let mask := (λ d, d <? tolerance) <$> diff in
  {| peak_mag := m;
     peak_hkls := np_compress mask (ProfileSimulation.hkls simulation);
     peak_diffs := np_compress mask diff |}.

(** A magnitude/hkl table: one Miller index per library magnitude. *)
Definition well_formed (simulation : ProfileSimulation.t) : Prop :=
  length (ProfileSimulation.magnitudes simulation)
  = length (ProfileSimulation.hkls simulation).

Definition table (simulation : ProfileSimulation.t) : list (float * HKL) :=
  zip (ProfileSimulation.magnitudes simulation)
      (ProfileSimulation.hkls simulation).

(** The (hkl, deviation) candidates an entry of the result carries. *)
Definition peak_candidates (e : PeakIndexation) : list (HKL * float) :=
  zip (peak_hkls e) (peak_diffs e).

(** The spec's words (section 4.2): the relative percent deviation
    [|sim_mag - m| / m * 100], and the library entries whose deviation is
    strictly less than the tolerance. *)
Definition spec_deviation (m sim_mag : float) : float :=
  abs (sim_mag - m) / m * 100.

Definition spec_candidates (tolerance m : float) (tbl : list (float * HKL))
  : list (HKL * float) :=
  (λ e, (e.2, spec_deviation m e.1))
    <$> filter (λ e, (spec_deviation m e.1 <? tolerance) = true) tbl.

Definition spec_indexed_peak (simulation : ProfileSimulation.t)
  (tolerance m : float) : PeakIndexation :=
  {| peak_mag := m;
     peak_hkls := (spec_candidates tolerance m (table simulation)).*1;
     peak_diffs := (spec_candidates tolerance m (table simulation)).*2 |}.

(** The spec's words (sections 4.2 and 7) for a zero magnitude: the peak is
    skipped (its slot is never written), or its candidates are chosen by
    the absolute error [|sim_mag - m|]. *)
Inductive ZeroPolicy :=
| SkipPeak
| AbsoluteFallback.

Definition guarded_slot (policy : ZeroPolicy) (simulation : ProfileSimulation.t)
  (tolerance m : float) : PyObj :=
  if m =? 0 then
    match policy with
    | SkipPeak => ObjZero
    | AbsoluteFallback =>
        let diff :=
          (λ s, abs (s - m)) <$> ProfileSimulation.magnitudes simulation in
        let mask := (λ d, d <? tolerance) <$> diff in
        ObjPeak {| peak_mag := m;
                   peak_hkls :=
                     np_compress mask (ProfileSimulation.hkls simulation);
                   peak_diffs := np_compress mask diff |}
    end
  else ObjPeak (indexed_peak simulation tolerance m).

Definition index_peaks_guarded (policy : ZeroPolicy)
  (self : ProfileIndexationGenerator.t) (tolerance : float) : list PyObj :=
  guarded_slot policy (ProfileIndexationGenerator.simulation self) tolerance
    <$> ProfileIndexationGenerator.magnitudes self.



(** The mask disables position [p]. *)
Definition mask_false_at (mask : Signal.t (list float)) (p : nat) : Prop :=
  ∃ x, Signal.data mask !! p = Some [x] ∧ (x =? 0) = true.

(** ** Inputs of the examples *)

(** Section 8: measured magnitude 2.00 against 1.98 (hkl 100) and 3.00
    (hkl 110). *)
Definition profile_example : ProfileIndexationGenerator.t :=
  {| ProfileIndexationGenerator.mapping := true;
     ProfileIndexationGenerator.magnitudes := [2.00];
     ProfileIndexationGenerator.simulation :=
       {| ProfileSimulation.magnitudes := [1.98; 3.00];
          ProfileSimulation.hkls := [(1, 0, 0); (1, 1, 0)]%Z |} |}.

(** A zero magnitude next to a regular one, against one library entry. *)
Definition zero_peak_example : ProfileIndexationGenerator.t :=
  {| ProfileIndexationGenerator.mapping := true;
     ProfileIndexationGenerator.magnitudes := [0; 2.00];
     ProfileIndexationGenerator.simulation :=
       {| ProfileSimulation.magnitudes := [0.5];
          ProfileSimulation.hkls := [(1, 0, 0)]%Z |} |}.

Definition nm_axis (n : nat) : Axis.t :=
  {| Axis.name := "x"; Axis.scale := 0.5; Axis.offset := 3;
     Axis.units := "nm"; Axis.size := n |}.

Definition pattern_A : Pattern := [[1; 0]; [0; 0]].
Definition pattern_B : Pattern := [[0; 1]; [0; 0]].

(** A 2 x 2 grid measured against a library of two phases. *)
Definition template_example : IndexationGenerator.t :=
  {| IndexationGenerator.signal :=
       {| Signal.navigation_axes := [nm_axis 2; nm_axis 2];
          Signal.data := [pattern_B; pattern_A; pattern_A; pattern_B] |};
     IndexationGenerator.library :=
       [("A", [((0, 0, 0), pattern_A)]); ("B", [((1, 2, 3), pattern_B)])] |}.

(** A mask that disables the first position of the grid. *)
Definition mask_example : Signal.t (list float) :=
  {| Signal.navigation_axes := [default_axis 2; default_axis 2];
     Signal.data := [[0]; [1]; [1]; [1]] |}.

(** A correlation measure for the examples: the sum of products of the
    intensities. *)
Definition overlap (a b : Pattern) : float :=
  foldr PrimFloat.add 0 (zip_with PrimFloat.mul (concat a) (concat b)).

(** The same measure kept at or above zero. *)
Definition clipped_overlap (a b : Pattern) : float :=
  if 0 <=? overlap a b then overlap a b else 0.

(** What [correlate] returns for the example, all positions enabled and
    with the first position disabled. *)
Definition template_example_result : Signal.t (list MatchRecord) :=
  Eval vm_compute in
    match outcome (IndexationGenerator.correlate
                     (correlate_library clipped_overlap) template_example 3
                     ["A"; "B"] None) with
    | Ok res => res
    | Raise _ => {| Signal.navigation_axes := []; Signal.data := [] |}
    end.

Definition masked_example_result : Signal.t (list MatchRecord) :=
  Eval vm_compute in
    match outcome (IndexationGenerator.correlate
                     (correlate_library clipped_overlap) template_example 3
                     ["A"; "B"] (Some mask_example)) with
    | Ok res => res
    | Raise _ => {| Signal.navigation_axes := []; Signal.data := [] |}
    end.







(** One position with two measured vectors; the matcher returns no
    hypothesis. *)
Definition vector_example : VectorIndexationGenerator.t :=
  {| VectorIndexationGenerator.vectors :=
       {| Signal.navigation_axes := [nm_axis 1];
          Signal.data := [[(1, 0); (0, 1)]] |};
     VectorIndexationGenerator.library := [] |}.

Definition no_match (v : list (float * float)) (l : DiffractionVectorLibrary)
  (mag_threshold angle_threshold : float) (keys : list string)
  : result (list VectorMatch) := Ok [].

(** ** One turn of the loop of [index_peaks] *)

(** A function applied to every item of a list, in order; the first
    exception ends the traversal. *)
Fixpoint map_result {A B} (f : A → result B) (l : list A) : result (list B) :=
  match l with
  | [] => Ok []
  | x :: rest => y ← f x; ys ← map_result f rest; Ok (y :: ys)
  end.

(** The body of the loop of [index_peaks] for the magnitude [m], up to the
    write into the array: the deviations, and the two index operations,
    either of which may raise. *)
Definition peak_result (simulation : ProfileSimulation.t)
  (tolerance m : float) : result PeakIndexation :=
  let diff := deviation m <$> ProfileSimulation.magnitudes simulation in
  hkls ← take_at (ProfileSimulation.hkls simulation)
                 (np_where ((λ d, d <? tolerance) <$> diff));
  diffs ← take_at diff (np_where ((λ d, d <? tolerance) <$> diff));
  Ok {| peak_mag := m; peak_hkls := hkls; peak_diffs := diffs |}.

(** The generator over the same simulation with other magnitudes. *)
Definition with_magnitudes (self : ProfileIndexationGenerator.t)
  (mags : list float) : ProfileIndexationGenerator.t :=
  {| ProfileIndexationGenerator.mapping :=
       ProfileIndexationGenerator.mapping self;
     ProfileIndexationGenerator.magnitudes := mags;
     ProfileIndexationGenerator.simulation :=
       ProfileIndexationGenerator.simulation self |}.

(** A value that is neither an infinity nor a NaN, and one that is
    moreover not a zero. *)
Definition finite (x : float) : Prop := (abs x <? infinity) = true.

Definition finite_nonzero (x : float) : Prop :=
  (0 <? abs x) = true ∧ (abs x <? infinity) = true.

(** A simulation that lists three magnitudes and only one Miller index. *)
Definition short_table_example : ProfileIndexationGenerator.t :=
  {| ProfileIndexationGenerator.mapping := true;
     ProfileIndexationGenerator.magnitudes := [2.00; 3.00];
     ProfileIndexationGenerator.simulation :=
       {| ProfileSimulation.magnitudes := [1.98; 5.00; 3.00];
          ProfileSimulation.hkls := [(1, 0, 0)%Z] |} |}.

(** ** [pyxem/signals/diffraction2d.py]: [Diffraction2D.find_peaks] *)

(** A signal of two-dimensional diffraction patterns: one pattern per
    navigation position, and the calibrated navigation and signal axes. *)
Module Diffraction2D.
Record t := {
  navigation_axes : list Axis.t;
  signal_axes : list Axis.t;
  data : list Pattern
}.
Definition signal_shape (s : t) : list nat := Axis.size <$> signal_axes s.
End Diffraction2D.

(** What [find_peaks] returns: the vectors found at each position, with
    the two attributes the method sets. *)
Module DiffractionVectors.
Record t := {
  navigation_axes : list Axis.t;
  data : list (list (float * float));
  pixel_calibration : float;
  detector_shape : list nat
}.
End DiffractionVectors.

(** The peak finders the module imports from [pyxem.utils.peakfinders2D]. *)
Inductive PeakFinder :=
| find_peaks_zaefferer
| find_peaks_stat
| find_peaks_dog
| find_peaks_log
| find_peaks_xc.

Definition method_dict : gmap string PeakFinder :=
  list_to_map
    [ ("zaefferer", find_peaks_zaefferer);
      ("stat", find_peaks_stat);
      ("laplacian_of_gaussians", find_peaks_log);
      ("difference_of_gaussians", find_peaks_dog);
      ("xc", find_peaks_xc) ].

(** A call that raises [NotImplementedError] at once, or runs. *)
Inductive dispatched (A : Type) :=
| NotImplementedError (msg : string)
| Ran (run : A).
Arguments NotImplementedError {A} msg.
Arguments Ran {A} run.

(** An integer of a numpy integer array as a [float64]. *)
Definition float_of_Z (z : Z) : float :=
  SF2Prim (binary_normalize prec emax z 0 false).

Section FindPeaks.

(** The positional and keyword arguments handed on to the peak finder. *)
Context {Args : Type}.

(** What the imported peak finders and [peaks_as_gvectors]
    ([pyxem.utils.expt_utils]) compute; neither is part of the sources at
    hand. *)
Variable run_finder :
  PeakFinder → Args → Pattern → result (list (float * float)).
Variable peaks_as_gvectors :
  list (float * float) → list float → float → result (list (float * float)).

(** The navigation axes hyperspy's [map] gives the signal it returns, from
    those of the signal it maps over. *)
Variable map_axes : list Axis.t → list Axis.t.

Definition find_peaks (self : Diffraction2D.t) (method : string) (args : Args)
  : dispatched (traced (nat * PeakFinder) DiffractionVectors.t) :=
  match method_dict !! method with
  | None =>
      NotImplementedError
        ("The method `" +:+ method +:+ "` is not implemented. "
         +:+ "See documentation for available " +:+ "implementations.")
  | Some method =>
      Ran (
        found ← map_positions
                  (λ z, Traced [method] (run_finder method args z)) 0
                  (Diffraction2D.data self);
        let peaks_axes := map_axes (Diffraction2D.navigation_axes self) in
        let center :=
          (λ n, float_of_Z (Z.of_nat n) / 2 - 0.5)
            <$> Diffraction2D.signal_shape self in
        calibration ← quiet (getitem (Diffraction2D.signal_axes self) 0);
        vectors ← quiet (map_result
                           (λ z, peaks_as_gvectors z center
                                   (Axis.scale calibration))
                           found);
        pixel ← quiet (getitem (Diffraction2D.signal_axes self) 0);
        x ← quiet (getitem peaks_axes 0);
        y ← quiet (getitem peaks_axes 1);
        nav0 ← quiet (getitem (Diffraction2D.navigation_axes self) 0);
        nav1 ← quiet (getitem (Diffraction2D.navigation_axes self) 1);
        let x' := {| Axis.name := "x"; Axis.scale := Axis.scale nav0;
                     Axis.offset := Axis.offset x; Axis.units := "nm";
                     Axis.size := Axis.size x |} in
        let y' := {| Axis.name := "y"; Axis.scale := Axis.scale nav1;
                     Axis.offset := Axis.offset y; Axis.units := "nm";
                     Axis.size := Axis.size y |} in
        mret {| DiffractionVectors.navigation_axes :=
                  <[1%nat := y']> (<[0%nat := x']> peaks_axes);
                DiffractionVectors.data := vectors;
                DiffractionVectors.pixel_calibration := Axis.scale pixel;
                DiffractionVectors.detector_shape :=
                  Diffraction2D.signal_shape self |})
  end.

End FindPeaks.

(** A 1 x 2 grid of 2 x 2 patterns, a line scan and two stand-ins for the
    collaborators: a finder that reports one peak at the origin, and the
    conversion [(z - center) * calibration]. *)
Definition pixel_axis (n : nat) : Axis.t :=
  {| Axis.name := "k"; Axis.scale := 0.01; Axis.offset := 0;
     Axis.units := "1/A"; Axis.size := n |}.

Definition patterns_example : Diffraction2D.t :=
  {| Diffraction2D.navigation_axes := [nm_axis 1; nm_axis 2];
     Diffraction2D.signal_axes := [pixel_axis 2; pixel_axis 2];
     Diffraction2D.data := [pattern_B; pattern_A] |}.

Definition line_patterns_example : Diffraction2D.t :=
  {| Diffraction2D.navigation_axes := [nm_axis 2];
     Diffraction2D.signal_axes := [pixel_axis 2; pixel_axis 2];
     Diffraction2D.data := [pattern_B; pattern_A] |}.

Definition origin_finder (f : PeakFinder) (args : unit) (z : Pattern)
  : result (list (float * float)) := Ok [(0, 0)].

Definition scaled_vectors (z : list (float * float)) (center : list float)
  (calibration : float) : result (list (float * float)) :=
  cx ← getitem center 0;
  cy ← getitem center 1;
  Ok ((λ p, ((p.1 - cx) * calibration, (p.2 - cy) * calibration)) <$> z).

Definition same_axes (axes : list Axis.t) : list Axis.t := axes.

(** What [find_peaks] does on the grid example with the method "stat". *)
Definition peaks_example_run : traced (nat * PeakFinder) DiffractionVectors.t :=
  Eval vm_compute in
    match find_peaks origin_finder scaled_vectors same_axes patterns_example
            "stat" tt with
    | Ran run => run
    | NotImplementedError _ => quiet (Raise TypeError)
    end.

Definition peaks_example_vectors : DiffractionVectors.t :=
  Eval vm_compute in
    match outcome peaks_example_run with
    | Ok dv => dv
    | Raise _ =>
        {| DiffractionVectors.navigation_axes := [];
           DiffractionVectors.data := [];
           DiffractionVectors.pixel_calibration := 0;
           DiffractionVectors.detector_shape := [] |}
    end.

(** ** [Diffraction2D.get_direct_beam_position] *)

(** The beam finders the module imports from [pyxem.utils.expt_utils]. *)
Inductive BeamFinder :=
| find_beam_offset_cross_correlation
| find_beam_center_blur
| find_beam_center_interpolate.

Definition beam_method_dict : gmap string BeamFinder :=
  list_to_map
    [ ("cross_correlate", find_beam_offset_cross_correlation);
      ("blur", find_beam_center_blur);
      ("interpolate", find_beam_center_interpolate) ].

Section DirectBeamPosition.

(** The keyword arguments handed on to the collaborators. *)
Context {Kwargs : Type}.

(** What [select_method_from_method_dict] ([pyxem.signals]), the beam
    finders and the subtraction of a signal from an array compute; none of
    them is part of the sources at hand. *)
Variable select_method_from_method_dict :
  string → gmap string BeamFinder → Kwargs → result BeamFinder.
Variable run_beam_finder :
  BeamFinder → Kwargs → Pattern → result (list float).
Variable origin_minus :
  list float → Signal.t (list float) → result (Signal.t (list float)).

(** [self.map(method_function, inplace=False, **kwargs)] *)
Definition map_beam_finder (self : Diffraction2D.t)
  (method_function : BeamFinder) (kwargs : Kwargs)
  : result (Signal.t (list float)) :=
  outcome (signal_map (E := Empty_set)
             (λ z, quiet (run_beam_finder method_function kwargs z))
             {| Signal.navigation_axes := Diffraction2D.navigation_axes self;
                Signal.data := Diffraction2D.data self |}).

(** Reading the local [shifts] before any branch has bound it raises
    [UnboundLocalError], a [NameError]. *)
Definition get_direct_beam_position (self : Diffraction2D.t)
  (method : string) (kwargs : Kwargs) : result (Signal.t (list float)) :=
  let signal_shape := Diffraction2D.signal_shape self in
  let origin_coordinates :=
    (λ n, float_of_Z (Z.of_nat n) / 2) <$> signal_shape in
  method_function ←
    select_method_from_method_dict method beam_method_dict kwargs;
  if String.eqb method "cross_correlate" then
    shifts ← map_beam_finder self method_function kwargs;
    Ok shifts
  else if String.eqb method "blur" || String.eqb method "interpolate" then
    centers ← map_beam_finder self method_function kwargs;
    shifts ← origin_minus origin_coordinates centers;
    Ok shifts
  else Raise (NameError "shifts").

End DirectBeamPosition.

(** Stand-ins for the collaborators: a selection that hands back the
    cross-correlation finder for any name, and a finder that reports the
    origin. *)
Definition lenient_select (method : string) (d : gmap string BeamFinder)
  (kwargs : unit) : result BeamFinder :=
  Ok (default find_beam_offset_cross_correlation (d !! method)).

Definition origin_beam (f : BeamFinder) (kwargs : unit) (z : Pattern)
  : result (list float) := Ok [0; 0].

Definition shift_from (origin : list float) (centers : Signal.t (list float))
  : result (Signal.t (list float)) :=
  Ok {| Signal.navigation_axes := Signal.navigation_axes centers;
        Signal.data :=
          (λ c, zip_with PrimFloat.sub origin c) <$> Signal.data centers |}.

(** * Part II: properties *)

(** ** Floating-point facts *)

Ltac lex := unfold lex_lt, lex_le in *; simpl in *; lia.

Lemma pos_cont_spec (m1 m2 : positive) :
  CompareSpec (m1 = m2) (Z.pos m1 < Z.pos m2)%Z (Z.pos m2 < Z.pos m1)%Z
              (PosDef.Pos.compare_cont Eq m1 m2).
Proof.
  change (PosDef.Pos.compare_cont Eq m1 m2) with (Pos.compare m1 m2).
  destruct (Pos.compare_spec m1 m2); constructor; lia.
Qed.

Ltac by_key :=
  split;
  [ try discriminate; intros _; do 2 eexists; repeat split; lex
  | intros (ka & kb & Hka & Hkb & Hlex); simplify_eq; try reflexivity; lex ].

Lemma SFltb_lex (x y : spec_float) : SFltb x y = true ↔ flt x y.
Proof.
  unfold SFltb, flt.
  destruct x as [sx|sx| |sx mx ex], y as [sy|sy| |sy my ey]; simpl;
    try destruct sx; try destruct sy; simpl; try by_key;
    destruct (Z.compare_spec ex ey); destruct (pos_cont_spec mx my);
    simpl; by_key.
Qed.

Lemma SFleb_lex (x y : spec_float) : SFleb x y = true ↔ fle x y.
Proof.
  unfold SFleb, fle.
  destruct x as [sx|sx| |sx mx ex], y as [sy|sy| |sy my ey]; simpl;
    try destruct sx; try destruct sy; simpl; try by_key;
    destruct (Z.compare_spec ex ey); destruct (pos_cont_spec mx my);
    simpl; by_key.
Qed.


(** *** The same facts for the primitive operations *)

Lemma ltb_trans (a b c : float) :
  (a <? b) = true → (b <? c) = true → (a <? c) = true.
Proof.
  rewrite !ltb_spec, !SFltb_lex.
  intros (k1 & k2 & ? & ? & ?) (k2' & k3 & ? & ? & ?); simplify_eq.
  exists k1, k3; repeat split; try done; lex.
Qed.



Lemma abs_nonneg (x : spec_float) :
  ∀ k, key (SFabs x) = Some k → lex_le (0, 0, 0)%Z k.
Proof. destruct x as [?|?| |? ? ?]; simpl; intros k ?; simplify_eq; lex. Qed.

(** [abs x] is never strictly below a tolerance that is at most zero. *)
Lemma abs_ltb_nonpos (x t : float) :
  (t <=? 0) = true → (abs x <? t) = false.
Proof.
  rewrite <- not_true_iff_false, leb_spec, ltb_spec, abs_spec, SFleb_lex, SFltb_lex.
  intros (kt & k0 & Ht & H0 & Hle) (ka & kt' & Ha & Ht' & Hlt).
  apply abs_nonneg in Ha. vm_compute in H0. simplify_eq. lex.
Qed.

(** Rounding does not look at the sign. *)
Lemma abs_round (s : bool) (m e : Z) (l : location) :
  SFabs (binary_round_aux prec emax s m e l)
  = binary_round_aux prec emax false m e l.
Proof.
  unfold binary_round_aux.
  destruct (shr_fexp prec emax m e l) as [mrs e'].
  destruct (shr_fexp prec emax _ e' loc_Exact) as [mrs' e''].
  destruct (shr_m mrs'); simpl; try reflexivity.
  destruct (Z.leb e'' _); reflexivity.
Qed.

Lemma abs_div (x y : spec_float) :
  sign_clear y → SFabs (SF64div x y) = SF64div (SFabs x) y.
Proof.
  unfold SF64div, SFdiv.
  destruct x as [sx|sx| |sx mx ex], y as [[]|[]| |[] my ey]; simpl; try done.
  intros _. destruct (SFdiv_core_binary _ _ _ _ _ _) as [[mz ez] lz].
  rewrite abs_round. reflexivity.
Qed.

Lemma abs_mul (x y : spec_float) :
  sign_clear y → SFabs (SF64mul x y) = SF64mul (SFabs x) y.
Proof.
  unfold SF64mul, SFmul.
  destruct x as [sx|sx| |sx mx ex], y as [[]|[]| |[] my ey]; simpl; try done.
  intros _. rewrite abs_round. reflexivity.
Qed.

Lemma sign_clear_of_abs (m : float) : abs m = m → sign_clear (Prim2SF m).
Proof.
  intros Hm. apply (f_equal Prim2SF) in Hm. rewrite abs_spec in Hm.
  by destruct (Prim2SF m) as [[]|[]| |[] ? ?].
Qed.

(** For a magnitude, that is a value equal to its absolute value, the
    code's deviation is the spec's. *)
Lemma deviation_spec (m s : float) :
  abs m = m → deviation m s = spec_deviation m s.
Proof.
  intros Hm. unfold deviation, spec_deviation. apply Prim2SF_inj.
  rewrite abs_spec, !mul_spec, !div_spec, abs_spec.
  rewrite abs_mul by exact I.
  rewrite abs_div by (by apply sign_clear_of_abs). reflexivity.
Qed.

(** Against a zero magnitude every deviation is an infinity or a NaN, and
    is below no tolerance. *)
Lemma deviation_zero (m s t : float) :
  (m =? 0) = true → (deviation m s <? t) = false.
Proof.
  unfold deviation.
  rewrite FloatAxioms.eqb_spec, ltb_spec, abs_spec, mul_spec, div_spec, sub_spec.
  change (Prim2SF 0) with (S754_zero false).
  change (Prim2SF 100) with (S754_finite false 7036874417766400 (-46)).
  destruct (Prim2SF m) as [b|[]| |[] ? ?]; try discriminate. intros _.
  destruct (Prim2SF s) as [[]|[]| |[] ? ?], b; simpl;
    destruct (Prim2SF t) as [[]|[]| |[] ? ?]; reflexivity.
Qed.

(** ** Results, loops and index arrays *)

Lemma load_global_np : load_global "np" = Ok GModule.
Proof. reflexivity. Qed.

Lemma getitem_lookup {A} (arr : list A) (i : nat) (x : A) :
  arr !! i = Some x → getitem arr i = Ok x.
Proof. unfold getitem. by intros ->. Qed.

(** A loop that writes slot [i] from the [i]-th input fills the whole
    array, whatever it held before. *)
Lemma for_range_fill_from {A B} (body : list B → nat → result (list B))
  (f : A → B) (z : B) (xs : list A) :
  (∀ ix i x, xs !! i = Some x → body ix i = Ok (<[i := f x]> ix)) →
  ∀ rest done, xs = done ++ rest →
    for_range body ((f <$> done) ++ replicate (length rest) z)
              (seq (length done) (length rest))
    = Ok (f <$> xs).
Proof.
  intros Hbody rest. induction rest as [|x rest IH]; intros done ->.
  - simpl. by rewrite !app_nil_r.
  - simpl. rewrite (Hbody _ _ x) by (by rewrite list_lookup_middle).
    simpl.
    replace (length done) with (length (f <$> done) + 0)%nat at 1
      by (rewrite length_fmap; lia).
    rewrite insert_app_r. simpl.
    specialize (IH (done ++ [x])).
    rewrite length_app, fmap_app, Nat.add_1_r in IH. simpl in IH.
    rewrite <- !app_assoc in IH. simpl in IH. by apply IH.
Qed.

Lemma for_range_fill {A B} (body : list B → nat → result (list B))
  (f : A → B) (z : B) (xs : list A) :
  (∀ ix i x, xs !! i = Some x → body ix i = Ok (<[i := f x]> ix)) →
  for_range body (replicate (length xs) z) (seq 0 (length xs)) = Ok (f <$> xs).
Proof. intros Hbody. by apply (for_range_fill_from body f z xs Hbody xs []). Qed.

(** Indexing with [np.where] is [np.compress] whenever the array is at
    least as long as the mask. *)
Lemma take_at_where_from {A} (mask : list bool) :
  ∀ (arr : list A) (i : nat), i + length mask ≤ length arr →
    take_at arr (where_from i mask) = Ok (np_compress mask (drop i arr)).
Proof.
  induction mask as [|b mask IH]; intros arr i Hlen; simpl in *.
  - reflexivity.
  - destruct (lookup_lt_is_Some_2 arr i) as [x Hx]; [lia|].
    rewrite (drop_S _ _ _ Hx).
    destruct b; simpl.
    + rewrite (getitem_lookup _ _ _ Hx). simpl.
      rewrite IH by lia. reflexivity.
    + apply IH. lia.
Qed.

Lemma take_at_where {A} (mask : list bool) (arr : list A) :
  length mask ≤ length arr →
  take_at arr (np_where mask) = Ok (np_compress mask arr).
Proof. intros. unfold np_where. by rewrite take_at_where_from. Qed.

Lemma where_from_all_false (mask : list bool) (i : nat) :
  Forall (λ b, b = false) mask → where_from i mask = [].
Proof.
  intros H. revert i. induction H as [|b mask -> _ IH]; intros i; simpl; auto.
Qed.

Lemma np_compress_all_false {A} (mask : list bool) (arr : list A) :
  Forall (λ b, b = false) mask → np_compress mask arr = [].
Proof.
  intros H. revert arr.
  induction H as [|b mask -> _ IH]; intros [|x arr]; simpl; auto.
Qed.

Lemma where_from_elem (mask : list bool) (i j : nat) :
  j ∈ where_from i mask ↔ ∃ k, j = (i + k)%nat ∧ mask !! k = Some true.
Proof.
  revert i. induction mask as [|b mask IH]; intros i; simpl.
  - split; [by intros ?%elem_of_nil | by intros (k & _ & ?)].
  - assert (j ∈ where_from (S i) mask
            ↔ ∃ k, j = (i + S k)%nat ∧ mask !! k = Some true) as IH'.
    { rewrite IH. split; intros (k & -> & ?); exists k; split; auto; lia. }
    destruct b; rewrite ?elem_of_cons, IH'; split.
    + intros [->|(k & -> & ?)]; [exists 0%nat | exists (S k)]; split; auto; lia.
    + intros ([|k] & -> & ?); [left; lia | right; eauto].
    + intros (k & -> & ?); exists (S k); auto.
    + intros ([|k] & -> & ?); [done | eauto].
Qed.

Lemma where_from_sorted (mask : list bool) (i : nat) :
  StronglySorted lt (where_from i mask).
Proof.
  revert i. induction mask as [|b mask IH]; intros i; simpl.
  - constructor.
  - destruct b; [|apply IH]. constructor; [apply IH|].
    apply Forall_forall. intros j (k & -> & _)%where_from_elem. lia.
Qed.

Lemma take_at_Forall2 {A} (arr : list A) (idx : list nat) (xs : list A) :
  take_at arr idx = Ok xs → Forall2 (λ j x, arr !! j = Some x) idx xs.
Proof.
  revert xs. induction idx as [|i idx IH]; intros xs; simpl.
  - intros [= <-]. constructor.
  - unfold getitem. destruct (arr !! i) as [x|] eqn:Hx; [|done]. simpl.
    destruct (take_at arr idx) as [ys|]; [|done]. simpl.
    intros [= <-]. constructor; auto.
Qed.

Lemma np_compress_zip {A B} (mask : list bool) (xs : list A) (ys : list B) :
  zip (np_compress mask xs) (np_compress mask ys)
  = np_compress mask (zip xs ys).
Proof.
  revert xs ys. induction mask as [|b mask IH]; intros [|x xs] [|y ys];
    simpl; try done.
  - destruct b; simpl; [done | by destruct (np_compress mask xs)].
  - destruct b; simpl; by rewrite IH.
Qed.

Lemma np_compress_mono {A} (mask1 mask2 : list bool) (arr : list A) :
  Forall2 (λ b1 b2, b1 = true → b2 = true) mask1 mask2 →
  np_compress mask1 arr ⊆ np_compress mask2 arr.
Proof.
  intros H. revert arr.
  induction H as [|b1 b2 mask1 mask2 Hb _ IH]; intros [|x arr]; simpl;
    try done.
  destruct b1, b2; try (by specialize (Hb eq_refl)).
  - intros y [->|?]%elem_of_cons; [left|right; by apply IH].
  - intros y ?. right. by apply IH.
  - apply IH.
Qed.

(** ** [ProfileIndexationGenerator.index_peaks] *)

Lemma take_at_mask {A} (mask : list bool) (arr : list A) :
  length mask ≤ length arr ∨ Forall (λ b, b = false) mask →
  take_at arr (np_where mask) = Ok (np_compress mask arr).
Proof.
  intros [Hlen|Hfalse].
  - by apply take_at_where.
  - unfold np_where. by rewrite where_from_all_false, np_compress_all_false.
Qed.

(** The mask the loop builds for magnitude [m]. *)
Lemma mask_length (tolerance m : float) (sim_mags : list float) :
  length ((λ d, d <? tolerance) <$> (deviation m <$> sim_mags))
  = length sim_mags.
Proof. by rewrite !length_fmap. Qed.

(** The loop writes [indexed_peak] into every slot as soon as indexing the
    Miller indices succeeds for every magnitude. *)
Lemma index_peaks_indexed (self : ProfileIndexationGenerator.t)
  (tolerance : float) :
  let simulation := ProfileIndexationGenerator.simulation self in
  (∀ m, m ∈ ProfileIndexationGenerator.magnitudes self →
     length (ProfileSimulation.magnitudes simulation)
       ≤ length (ProfileSimulation.hkls simulation)
     ∨ Forall (λ b, b = false)
         ((λ d, d <? tolerance)
            <$> (deviation m <$> ProfileSimulation.magnitudes simulation))) →
  ProfileIndexationGenerator.index_peaks self tolerance
  = Ok (ObjPeak ∘ indexed_peak simulation tolerance
          <$> ProfileIndexationGenerator.magnitudes self).
Proof.
  intros simulation Hsel. unfold ProfileIndexationGenerator.index_peaks.
  rewrite load_global_np. simpl.
  apply (for_range_fill _ (ObjPeak ∘ indexed_peak simulation tolerance)).
  intros ix i m Hm. rewrite (getitem_lookup _ _ _ Hm). simpl.
  fold (deviation m).
  rewrite (take_at_mask _ (ProfileSimulation.hkls _)); cycle 1.
  { destruct (Hsel m) as [?|?]; [by eapply list_elem_of_lookup_2| |by right].
    left. by rewrite mask_length. }
  simpl. rewrite take_at_where by (by rewrite !length_fmap). reflexivity.
Qed.

Lemma index_peaks_well_formed (self : ProfileIndexationGenerator.t)
  (tolerance : float) :
  well_formed (ProfileIndexationGenerator.simulation self) →
  ProfileIndexationGenerator.index_peaks self tolerance
  = Ok (ObjPeak ∘ indexed_peak (ProfileIndexationGenerator.simulation self)
                               tolerance
          <$> ProfileIndexationGenerator.magnitudes self).
Proof.
  intros Hwf. apply index_peaks_indexed. intros m _. left.
  unfold well_formed in Hwf. lia.
Qed.

(** [np.compress] over the table is the spec's filter, for any deviation
    function. *)
Lemma np_compress_filter_hkls (dev : float → float) (tolerance : float)
  (ms : list float) (hs : list HKL) :
  np_compress ((λ d, d <? tolerance) <$> (dev <$> ms)) hs
  = ((λ e : float * HKL, (e.2, dev e.1))
       <$> filter (λ e, (dev e.1 <? tolerance) = true) (zip ms hs)).*1.
Proof.
  revert hs. induction ms as [|m ms IH]; intros [|h hs]; try done.
  rewrite !fmap_cons. cbn [np_compress zip zip_with].
  rewrite filter_cons. cbn [fst snd].
  destruct (dev m <? tolerance) eqn:Hd; case_decide; try done;
    rewrite ?fmap_cons; cbn [fst snd]; by rewrite IH.
Qed.

Lemma np_compress_filter_diffs (dev : float → float) (tolerance : float)
  (ms : list float) (hs : list HKL) :
  length ms ≤ length hs →
  np_compress ((λ d, d <? tolerance) <$> (dev <$> ms)) (dev <$> ms)
  = ((λ e : float * HKL, (e.2, dev e.1))
       <$> filter (λ e, (dev e.1 <? tolerance) = true) (zip ms hs)).*2.
Proof.
  revert hs. induction ms as [|m ms IH]; intros [|h hs] Hlen; try done.
  { simpl in Hlen. lia. }
  rewrite !fmap_cons. cbn [np_compress zip zip_with].
  rewrite filter_cons. cbn [fst snd].
  destruct (dev m <? tolerance) eqn:Hd; case_decide; try done;
    rewrite ?fmap_cons; cbn [fst snd]; rewrite (IH hs); try done;
    simpl in Hlen; lia.
Qed.

Lemma indexed_peak_spec (simulation : ProfileSimulation.t)
  (tolerance m : float) :
  well_formed simulation → abs m = m →
  indexed_peak simulation tolerance m = spec_indexed_peak simulation tolerance m.
Proof.
  intros Hwf Hm. unfold indexed_peak, spec_indexed_peak, spec_candidates, table.
  assert (deviation m <$> ProfileSimulation.magnitudes simulation
          = spec_deviation m <$> ProfileSimulation.magnitudes simulation) as ->.
  { apply list_fmap_ext. intros _ s _. by apply deviation_spec. }
  rewrite np_compress_filter_hkls.
  rewrite (np_compress_filter_diffs _ _ _ (ProfileSimulation.hkls simulation))
    by (unfold well_formed in Hwf; lia).
  reflexivity.
Qed.

(** C1: for a magnitude/hkl table and measured magnitudes (values equal
    to their absolute value), [index_peaks] pairs every measured magnitude
    [m] with exactly the library entries whose relative percent deviation
    [|sim_mag - m| / m * 100] is strictly below the tolerance, with their
    Miller indices and deviations; for the measured magnitude 2.00 against
    1.98 (hkl 100) and 3.00 (hkl 110) at tolerance 2.0 only hkl 100 is
    returned. *)
Theorem index_peaks_relative_tolerance :
  (∀ (self : ProfileIndexationGenerator.t) (tolerance : float),
     well_formed (ProfileIndexationGenerator.simulation self) →
     Forall (λ m, abs m = m) (ProfileIndexationGenerator.magnitudes self) →
     ProfileIndexationGenerator.index_peaks self tolerance
     = Ok ((λ m, ObjPeak (spec_indexed_peak
                            (ProfileIndexationGenerator.simulation self)
                            tolerance m))
             <$> ProfileIndexationGenerator.magnitudes self))
  ∧ ProfileIndexationGenerator.index_peaks profile_example 2.0
    = Ok [ObjPeak {| peak_mag := 2.00; peak_hkls := [(1, 0, 0)%Z];
                     peak_diffs := [abs (1.98 - 2.00) / 2.00 * 100] |}]
  ∧ (abs (1.98 - 2.00) / 2.00 * 100 <? 2.0) = true
  ∧ (abs (3.00 - 2.00) / 2.00 * 100 <? 2.0) = false.
Proof.
  split; [|by vm_compute].
  intros self tolerance Hwf Hpos.
  rewrite index_peaks_well_formed by done. f_equal.
  apply list_fmap_ext. intros i m Hm. simpl. f_equal.
  apply indexed_peak_spec; [done|].
  by apply (Forall_lookup_1 _ _ _ _ Hpos Hm).
Qed.

Lemma index_peaks_relative_tolerance_witness :
  ProfileIndexationGenerator.index_peaks profile_example 2.0
  = Ok ((λ m, ObjPeak (spec_indexed_peak
                         (ProfileIndexationGenerator.simulation profile_example)
                         2.0 m))
          <$> ProfileIndexationGenerator.magnitudes profile_example).
Proof.
  apply (proj1 index_peaks_relative_tolerance profile_example 2.0).
  - reflexivity.
  - repeat constructor.
Defined.

(** C10: for a magnitude/hkl table, [index_peaks] returns one entry per
    measured magnitude, in input order; the [i]-th entry pairs the [i]-th
    magnitude with the Miller indices and deviations found at the
    qualifying positions of the simulation's magnitude table, taken in
    increasing position. *)
Theorem index_peaks_entry_per_magnitude
  (self : ProfileIndexationGenerator.t) (tolerance : float) :
  let simulation := ProfileIndexationGenerator.simulation self in
  let sim_mags := ProfileSimulation.magnitudes simulation in
  let sim_hkls := ProfileSimulation.hkls simulation in
  well_formed simulation →
  ∃ out,
    ProfileIndexationGenerator.index_peaks self tolerance = Ok out
    ∧ length out = length (ProfileIndexationGenerator.magnitudes self)
    ∧ ∀ i m, ProfileIndexationGenerator.magnitudes self !! i = Some m →
        ∃ e idx,
          out !! i = Some (ObjPeak e)
          ∧ peak_mag e = m
          ∧ StronglySorted lt idx
          ∧ (∀ j, j ∈ idx ↔
                  ∃ s, sim_mags !! j = Some s
                       ∧ (deviation m s <? tolerance) = true)
          ∧ Forall2 (λ j h, sim_hkls !! j = Some h) idx (peak_hkls e)
          ∧ Forall2 (λ j d, ∃ s, sim_mags !! j = Some s ∧ d = deviation m s)
                    idx (peak_diffs e).
Proof.
  intros simulation sim_mags sim_hkls Hwf.
  eexists. split; [by apply index_peaks_well_formed|].
  split; [by rewrite length_fmap|].
  intros i m Hm.
  set (diff := deviation m <$> sim_mags).
  set (mask := (λ d, d <? tolerance) <$> diff).
  exists (indexed_peak simulation tolerance m), (np_where mask).
  split; [by rewrite list_lookup_fmap, Hm|].
  split; [done|].
  split; [apply where_from_sorted|].
  split.
  { intros j. unfold np_where. rewrite where_from_elem. subst mask diff.
    split.
    - intros (k & -> & Hk). simpl.
      rewrite !list_lookup_fmap in Hk.
      destruct (sim_mags !! k) as [s|]; [|done]. simpl in Hk.
      exists s. split; [done|]. congruence.
    - intros (s & Hs & Hd). exists j. split; [done|].
      by rewrite !list_lookup_fmap, Hs; simpl; rewrite Hd. }
  split.
  - apply take_at_Forall2. apply take_at_where.
    subst mask diff. rewrite !length_fmap. by rewrite Hwf.
  - assert (take_at diff (np_where mask)
            = Ok (peak_diffs (indexed_peak simulation tolerance m))) as Ht.
    { apply take_at_where. subst mask. by rewrite length_fmap. }
    apply take_at_Forall2 in Ht.
    eapply Forall2_impl; [exact Ht|].
    intros j d Hd. cbv beta in Hd. subst diff.
    rewrite list_lookup_fmap in Hd.
    destruct (sim_mags !! j) as [s|]; [|done]. simpl in Hd.
    exists s. split; [done|]. congruence.
Qed.

Lemma index_peaks_entry_per_magnitude_witness :
  ∃ out,
    ProfileIndexationGenerator.index_peaks profile_example 2.0 = Ok out
    ∧ length out = 1%nat
    ∧ ∀ i m, [2.00] !! i = Some m →
        ∃ e idx,
          out !! i = Some (ObjPeak e)
          ∧ peak_mag e = m
          ∧ StronglySorted lt idx
          ∧ (∀ j, j ∈ idx ↔
                  ∃ s, [1.98; 3.00] !! j = Some s
                       ∧ (deviation m s <? 2.0) = true)
          ∧ Forall2 (λ j h, [(1, 0, 0); (1, 1, 0)]%Z !! j = Some h) idx
                    (peak_hkls e)
          ∧ Forall2 (λ j d, ∃ s, [1.98; 3.00] !! j = Some s
                                 ∧ d = deviation m s)
                    idx (peak_diffs e).
Proof.
  apply (index_peaks_entry_per_magnitude profile_example 2.0). reflexivity.
Defined.

(** C6: for a magnitude/hkl table and tolerances [tolerance1 < tolerance2],
    the (hkl, deviation) candidates [index_peaks] returns for each measured
    magnitude at [tolerance1] are among those it returns at [tolerance2]. *)
Theorem index_peaks_tolerance_monotone
  (self : ProfileIndexationGenerator.t) (tolerance1 tolerance2 : float) :
  well_formed (ProfileIndexationGenerator.simulation self) →
  (tolerance1 <? tolerance2) = true →
  ∃ out1 out2,
    ProfileIndexationGenerator.index_peaks self tolerance1 = Ok out1
    ∧ ProfileIndexationGenerator.index_peaks self tolerance2 = Ok out2
    ∧ Forall2 (λ o1 o2, ∃ e1 e2,
                 o1 = ObjPeak e1 ∧ o2 = ObjPeak e2
                 ∧ peak_mag e1 = peak_mag e2
                 ∧ peak_candidates e1 ⊆ peak_candidates e2)
              out1 out2.
Proof.
  intros Hwf Hlt. do 2 eexists.
  split; [by apply index_peaks_well_formed|].
  split; [by apply index_peaks_well_formed|].
  apply Forall2_fmap, Forall_Forall2_diag, Forall_forall. intros m _.
  do 2 eexists. split; [done|]. split; [done|]. split; [done|].
  unfold peak_candidates, indexed_peak. simpl.
  rewrite !np_compress_zip. apply np_compress_mono.
  apply Forall2_fmap, Forall_Forall2_diag, Forall_forall. intros d _ Hd.
  by eapply ltb_trans.
Qed.

Lemma index_peaks_tolerance_monotone_witness :
  ∃ out1 out2,
    ProfileIndexationGenerator.index_peaks profile_example 2.0 = Ok out1
    ∧ ProfileIndexationGenerator.index_peaks profile_example 60.0 = Ok out2
    ∧ Forall2 (λ o1 o2, ∃ e1 e2,
                 o1 = ObjPeak e1 ∧ o2 = ObjPeak e2
                 ∧ peak_mag e1 = peak_mag e2
                 ∧ peak_candidates e1 ⊆ peak_candidates e2)
              out1 out2.
Proof.
  apply (index_peaks_tolerance_monotone profile_example 2.0 60.0);
    reflexivity.
Defined.

(** C7: when the tolerance is at most zero, [index_peaks] returns no match
    for any measured magnitude: no deviation, exact or not, is strictly
    below such a tolerance. *)
Theorem index_peaks_nonpositive_tolerance
  (self : ProfileIndexationGenerator.t) (tolerance : float) :
  (tolerance <=? 0) = true →
  ProfileIndexationGenerator.index_peaks self tolerance
  = Ok ((λ m, ObjPeak {| peak_mag := m; peak_hkls := []; peak_diffs := [] |})
          <$> ProfileIndexationGenerator.magnitudes self).
Proof.
  intros Htol.
  assert (∀ m, Forall (λ b, b = false)
                 ((λ d, d <? tolerance)
                    <$> (deviation m
                           <$> ProfileSimulation.magnitudes
                                 (ProfileIndexationGenerator.simulation self))))
    as Hnone.
  { intros m. apply Forall_fmap, Forall_fmap, Forall_forall. intros s _.
    simpl. by apply abs_ltb_nonpos. }
  rewrite index_peaks_indexed by (intros m _; right; apply Hnone).
  f_equal. apply list_fmap_ext. intros _ m _. simpl. f_equal.
  unfold indexed_peak. by rewrite !np_compress_all_false.
Qed.

Lemma index_peaks_nonpositive_tolerance_witness :
  ProfileIndexationGenerator.index_peaks profile_example 0
  = Ok [ObjPeak {| peak_mag := 2.00; peak_hkls := []; peak_diffs := [] |}].
Proof.
  apply (index_peaks_nonpositive_tolerance profile_example 0). reflexivity.
Defined.

(** C8, counterexample: for the magnitudes [0; 2.00] against the library
    magnitude 0.5 at tolerance 1 the division is carried out (the
    deviation of the zero peak is an infinity), the zero peak is not
    skipped (its slot is written) and no absolute-error fallback is used
    (it would keep hkl 100, whose absolute error is 0.5). *)
Lemma index_peaks_zero_magnitude_unguarded :
  deviation 0 0.5 = infinity
  ∧ ProfileIndexationGenerator.index_peaks zero_peak_example 1
    = Ok [ObjPeak {| peak_mag := 0; peak_hkls := []; peak_diffs := [] |};
          ObjPeak {| peak_mag := 2.00; peak_hkls := []; peak_diffs := [] |}]
  ∧ ProfileIndexationGenerator.index_peaks zero_peak_example 1
    ≠ Ok (index_peaks_guarded SkipPeak zero_peak_example 1)
  ∧ ProfileIndexationGenerator.index_peaks zero_peak_example 1
    ≠ Ok (index_peaks_guarded AbsoluteFallback zero_peak_example 1).
Proof.
  split; [by vm_compute|]. split; [by vm_compute|].
  split; vm_compute; intros [=].
Qed.

(** C8, as the code has it: for a magnitude/hkl table [index_peaks] does
    not raise on a zero magnitude. The division is not guarded: it yields
    an infinity or a NaN, which is below no tolerance, so the zero peak
    keeps its slot, with no Miller index and no deviation. *)
Theorem index_peaks_zero_magnitude
  (self : ProfileIndexationGenerator.t) (tolerance : float) :
  well_formed (ProfileIndexationGenerator.simulation self) →
  ∃ out,
    ProfileIndexationGenerator.index_peaks self tolerance = Ok out
    ∧ length out = length (ProfileIndexationGenerator.magnitudes self)
    ∧ ∀ i m, ProfileIndexationGenerator.magnitudes self !! i = Some m →
        (m =? 0) = true →
        out !! i
        = Some (ObjPeak {| peak_mag := m; peak_hkls := []; peak_diffs := [] |}).
Proof.
  intros Hwf. eexists. split; [by apply index_peaks_well_formed|].
  split; [by rewrite length_fmap|].
  intros i m Hm Hzero. rewrite list_lookup_fmap, Hm. simpl. do 2 f_equal.
  unfold indexed_peak.
  rewrite !np_compress_all_false; [done| |];
    apply Forall_fmap, Forall_fmap, Forall_forall; intros s _; simpl;
    by apply deviation_zero.
Qed.

Lemma index_peaks_zero_magnitude_witness :
  ∃ out,
    ProfileIndexationGenerator.index_peaks zero_peak_example 1 = Ok out
    ∧ length out = 2%nat
    ∧ ∀ i m, [0; 2.00] !! i = Some m →
        (m =? 0) = true →
        out !! i
        = Some (ObjPeak {| peak_mag := m; peak_hkls := []; peak_diffs := [] |}).
Proof.
  apply (index_peaks_zero_magnitude zero_peak_example 1). reflexivity.
Defined.

(** ** Traced computations and the orchestrator *)

Lemma quiet_bind {E A B} (r : result A) (k : A → traced E B) :
  quiet r ≫= k = match r with Ok a => k a | Raise e => quiet (Raise e) end.
Proof.
  destruct r as [a|e]; [|done].
  unfold mbind, traced_bind; simpl. by destruct (k a).
Qed.

Lemma traced_bind_ext {E A B} (t : traced E A) (k1 k2 : A → traced E B) :
  (∀ a, k1 a = k2 a) → t ≫= k1 = t ≫= k2.
Proof.
  intros Hk. unfold mbind, traced_bind.
  destruct (outcome t) as [a|e]; [by rewrite Hk|done].
Qed.

Lemma bind_ret_events {E A B} (t : traced E A) (g : A → B) :
  events (t ≫= λ a, mret (g a)) = events t.
Proof.
  unfold mbind, traced_bind. destruct (outcome t); simpl; [|done].
  by rewrite app_nil_r.
Qed.

Lemma bind_ret_outcome {E A B} (t : traced E A) (g : A → B) :
  outcome (t ≫= λ a, mret (g a)) = g <$> outcome t.
Proof. unfold mbind, traced_bind. by destruct (outcome t). Qed.

Section MapPositions.
Context {A B E : Type} (f : A → traced E B).

Lemma map_positions_outcome (items : list A) :
  ∀ p ys, outcome (map_positions f p items) = Ok ys →
    Forall2 (λ x y, outcome (f x) = Ok y) items ys.
Proof.
  induction items as [|x items IH]; intros p ys; simpl.
  - intros [= <-]. constructor.
  - unfold mbind, traced_bind, at_position; simpl.
    destruct (outcome (f x)) as [y|] eqn:Hy; simpl; [|done].
    destruct (outcome (map_positions f (S p) items)) as [ys'|] eqn:Hys;
      simpl; [|done].
    intros [= <-]. constructor; eauto.
Qed.

Lemma map_positions_events (items : list A) :
  ∀ (p q : nat) ev, (q, ev) ∈ events (map_positions f p items) →
    ∃ x, p ≤ q ∧ items !! (q - p)%nat = Some x ∧ ev ∈ events (f x).
Proof.
  induction items as [|x items IH]; intros p q ev; simpl.
  - by intros ?%elem_of_nil.
  - unfold mbind, traced_bind, at_position; simpl.
    assert ((q, ev) ∈ ((λ ev, (p, ev)) <$> events (f x)) →
            ∃ x0, p ≤ q ∧ (x :: items) !! (q - p)%nat = Some x0
                  ∧ ev ∈ events (f x0)) as Hhere.
    { intros (ev' & [= -> ->] & Hev)%list_elem_of_fmap.
      exists x. by rewrite Nat.sub_diag. }
    assert ((q, ev) ∈ events (map_positions f (S p) items) →
            ∃ x0, p ≤ q ∧ (x :: items) !! (q - p)%nat = Some x0
                  ∧ ev ∈ events (f x0)) as Hlater.
    { intros (x0 & Hle & Hx0 & Hev)%IH. exists x0.
      replace (q - p)%nat with (S (q - S p)) by lia.
      split; [lia|done]. }
    destruct (outcome (f x)) as [y|]; simpl; [|done].
    destruct (outcome (map_positions f (S p) items)); simpl;
      rewrite ?app_nil_r; intros [?|?]%elem_of_app; auto.
Qed.

Lemma signal_map_outcome (signal : Signal.t A) (res : Signal.t B) :
  outcome (signal_map f signal) = Ok res →
  Signal.navigation_axes res
    = default_axis <$> Signal.navigation_shape signal
  ∧ Forall2 (λ x y, outcome (f x) = Ok y) (Signal.data signal) (Signal.data res).
Proof.
  unfold signal_map. rewrite bind_ret_outcome.
  destruct (outcome (map_positions f 0 (Signal.data signal))) as [ys|] eqn:Hys;
    [|done].
  intros [= <-]. simpl. split; [done|]. by eapply map_positions_outcome.
Qed.

Lemma signal_map_events (signal : Signal.t A) (q : nat) (ev : E) :
  (q, ev) ∈ events (signal_map f signal) →
  ∃ x, Signal.data signal !! q = Some x ∧ ev ∈ events (f x).
Proof.
  unfold signal_map. rewrite bind_ret_events.
  intros (x & _ & Hx & Hev)%map_positions_events.
  rewrite Nat.sub_0_r in Hx. eauto.
Qed.

End MapPositions.

Lemma signal_map_with_outcome {A M B E} (f : A → M → traced E B)
  (signal : Signal.t A) (mask : Signal.t M) (res : Signal.t B) :
  outcome (signal_map_with f signal mask) = Ok res →
  Signal.navigation_axes res
    = default_axis <$> Signal.navigation_shape signal
  ∧ length (Signal.data mask) = length (Signal.data signal)
  ∧ Forall2 (λ xm y, outcome (f xm.1 xm.2) = Ok y)
            (zip (Signal.data signal) (Signal.data mask)) (Signal.data res).
Proof.
  unfold signal_map_with. case_bool_decide as Hshape; [|done].
  intros [Hax Hdata]%signal_map_outcome. by destruct Hshape.
Qed.

Lemma signal_map_with_events {A M B E} (f : A → M → traced E B)
  (signal : Signal.t A) (mask : Signal.t M) (q : nat) (ev : E) :
  (q, ev) ∈ events (signal_map_with f signal mask) →
  ∃ x m, Signal.data signal !! q = Some x ∧ Signal.data mask !! q = Some m
         ∧ ev ∈ events (f x m).
Proof.
  unfold signal_map_with. case_bool_decide; [|by intros ?%elem_of_nil].
  intros ([x m] & Hxm & Hev)%signal_map_events. simpl in *.
  apply lookup_zip_Some in Hxm as [? ?]. eauto.
Qed.

(** ** [transfer_navigation_axes] *)

Lemma transfer_default_axes (axes : list Axis.t) :
  zip_with transfer_axis (default_axis <$> (Axis.size <$> axes)) axes
  ++ drop (length axes) (default_axis <$> (Axis.size <$> axes))
  = axes.
Proof.
  rewrite drop_ge by (by rewrite !length_fmap). rewrite app_nil_r.
  induction axes as [|a axes IH]; [done|].
  rewrite !fmap_cons. cbn [zip_with]. rewrite IH. by destruct a.
Qed.

(** ** [IndexationGenerator.correlate] *)

Lemma load_global_correlate_library :
  load_global "correlate_library" = Ok GFunction.
Proof. reflexivity. Qed.

Lemma load_global_TemplateMatchingResults :
  load_global "TemplateMatchingResults" = Ok GSignalClass.
Proof. reflexivity. Qed.

Lemma load_global_transfer_navigation_axes :
  load_global "transfer_navigation_axes" = Ok GFunction.
Proof. reflexivity. Qed.

Section CorrelateFacts.
Variable matcher :
  Pattern → DiffractionLibrary → nat → list float → list string →
  traced ScoreCall (list MatchRecord).
Variables (self : IndexationGenerator.t) (n_largest : nat)
  (keys : list string).

Abbreviation per_position :=
  (λ image m, matcher image (IndexationGenerator.library self) n_largest m keys).

(** Once the mask is known, [correlate] is the orchestrated map followed
    by the transfer of the axes. *)
Lemma correlate_run (mask : option (Signal.t (list float)))
  (mk : Signal.t (list float)) :
  match mask with
  | None => IndexationGenerator.default_mask
              (Signal.navigation_shape (IndexationGenerator.signal self))
  | Some m => Ok m
  end = Ok mk →
  IndexationGenerator.correlate matcher self n_largest keys mask
  = signal_map_with per_position (IndexationGenerator.signal self) mk
      ≫= λ matches,
           mret (transfer_navigation_axes matches
                   (IndexationGenerator.signal self)).
Proof.
  intros Hmask. unfold IndexationGenerator.correlate.
  rewrite Hmask, quiet_bind, load_global_correlate_library, quiet_bind.
  apply traced_bind_ext. intros matches.
  rewrite load_global_TemplateMatchingResults, quiet_bind.
  cbn [construct]. rewrite quiet_bind. cbv beta iota.
  by rewrite load_global_transfer_navigation_axes, quiet_bind.
Qed.

Lemma correlate_mask_error (mask : option (Signal.t (list float)))
  (e : PyError) :
  match mask with
  | None => IndexationGenerator.default_mask
              (Signal.navigation_shape (IndexationGenerator.signal self))
  | Some m => Ok m
  end = Raise e →
  IndexationGenerator.correlate matcher self n_largest keys mask
  = quiet (Raise e).
Proof.
  intros Hmask. unfold IndexationGenerator.correlate.
  by rewrite Hmask, quiet_bind.
Qed.

(** The results of [correlate] carry the navigation axes of the input
    signal, calibration included. *)
Lemma correlate_keeps_navigation_axes (mask : option (Signal.t (list float)))
  (res : Signal.t (list MatchRecord)) :
  outcome (IndexationGenerator.correlate matcher self n_largest keys mask)
  = Ok res →
  Signal.navigation_axes res
  = Signal.navigation_axes (IndexationGenerator.signal self).
Proof.
  destruct (match mask with
            | None => IndexationGenerator.default_mask
                        (Signal.navigation_shape (IndexationGenerator.signal self))
            | Some m => Ok m
            end) as [mk|e] eqn:Hmask.
  - rewrite (correlate_run _ _ Hmask), bind_ret_outcome.
    destruct (outcome (signal_map_with _ _ _)) as [matches|] eqn:Hrun; [|done].
    intros [= <-]. apply signal_map_with_outcome in Hrun as (Hax & _ & _).
    simpl. rewrite Hax. apply transfer_default_axes.
  - by rewrite (correlate_mask_error _ _ Hmask).
Qed.

End CorrelateFacts.

(** ** The template matcher *)











Section TemplateMatcherFacts.
Variable correlation : Pattern → Pattern → float.




(** At a disabled position the matcher scores nothing and, when it
    returns, returns the placeholder. *)
Lemma correlate_library_disabled (image : Pattern)
  (library : DiffractionLibrary) (n_largest : nat) (x : float)
  (keys : list string) :
  (x =? 0) = true →
  events (correlate_library correlation image library n_largest [x] keys) = []
  ∧ ∀ recs,
      outcome (correlate_library correlation image library n_largest [x] keys)
      = Ok recs →
      recs = placeholder n_largest.
Proof.
  intros Hx. unfold correlate_library.
  destruct (valid_configuration library n_largest keys); [|done].
  rewrite quiet_bind. simpl. rewrite Hx. simpl. split; [done|].
  by intros recs [= <-].
Qed.


End TemplateMatcherFacts.





(** C4: at a position [p] where the supplied mask is false, [correlate]
    scores nothing (no scoring call is logged for [p]) and the results it
    returns hold at [p] the placeholder of [n_largest] zero-filled records
    (phase 0, angles 0, score 0). *)
Theorem correlate_masked_position
  (correlation : Pattern → Pattern → float) (self : IndexationGenerator.t)
  (n_largest : nat) (keys : list string) (mask : Signal.t (list float))
  (p : nat) :
  mask_false_at mask p →
  (∀ call,
     (p, call) ∉ events (IndexationGenerator.correlate
                           (correlate_library correlation) self n_largest
                           keys (Some mask)))
  ∧ (∀ res,
       outcome (IndexationGenerator.correlate
                  (correlate_library correlation) self n_largest keys
                  (Some mask)) = Ok res →
       Signal.data res !! p
       = Some (replicate n_largest
                 {| phase := PhaseIndex 0; angles := (0, 0, 0); score := 0 |})).
Proof.
  intros (x & Hp & Hx).
  rewrite (correlate_run _ _ _ _ (Some mask) mask eq_refl).
  rewrite bind_ret_events, bind_ret_outcome. split.
  - intros call (image & m & _ & Hm & Hcall)%signal_map_with_events.
    rewrite Hp in Hm. injection Hm as <-.
    destruct (correlate_library_disabled correlation image
                (IndexationGenerator.library self) n_largest x keys Hx)
      as [Hev _].
    rewrite Hev in Hcall. by apply elem_of_nil in Hcall.
  - intros res.
    destruct (outcome (signal_map_with _ _ _)) as [matches|] eqn:Hrun; [|done].
    intros [= <-]. simpl.
    apply signal_map_with_outcome in Hrun as (_ & Hlen & Hall).
    destruct (lookup_lt_is_Some_2 (Signal.data (IndexationGenerator.signal self)) p)
      as [image Himage].
    { rewrite <- Hlen. by eapply lookup_lt_Some. }
    assert (zip (Signal.data (IndexationGenerator.signal self))
                (Signal.data mask) !! p = Some (image, [x])) as Hzip
      by (by apply lookup_zip_Some).
    destruct (Forall2_lookup_l _ _ _ _ _ Hall Hzip) as (recs & Hrecs & Hout).
    rewrite Hrecs. f_equal. simpl in Hout.
    by apply (correlate_library_disabled correlation image
                (IndexationGenerator.library self) n_largest x keys Hx).
Qed.

Lemma correlate_masked_position_witness :
  outcome (IndexationGenerator.correlate (correlate_library clipped_overlap)
             template_example 3 ["A"; "B"] (Some mask_example))
  = Ok masked_example_result
  ∧ Signal.data masked_example_result !! 0%nat
    = Some (replicate 3
              {| phase := PhaseIndex 0; angles := (0, 0, 0); score := 0 |})
  ∧ ∀ call,
      (0%nat, call) ∉ events (IndexationGenerator.correlate
                                (correlate_library clipped_overlap)
                                template_example 3 ["A"; "B"]
                                (Some mask_example)).
Proof.
  destruct (correlate_masked_position clipped_overlap template_example 3
              ["A"; "B"] mask_example 0) as [Hcalls Hres].
  - exists 0. split; reflexivity.
  - split; [vm_compute; reflexivity|]. split; [|exact Hcalls].
    apply Hres. vm_compute. reflexivity.
Defined.

(** ** The default mask *)











(** ** [VectorIndexationGenerator.index_vectors] *)

Lemma load_global_match_vectors : load_global "match_vectors" = Ok GFunction.
Proof. reflexivity. Qed.

Lemma load_global_VectorMatchingResults :
  load_global "VectorMatchingResults" = Raise (NameError "VectorMatchingResults").
Proof. reflexivity. Qed.

(** C2: [index_vectors] returns nothing. Once [match_vectors] has been
    mapped over every position, the name [VectorMatchingResults] is looked
    up; the module never binds it, so the call ends in a [NameError] (or in
    the exception the matcher raised first) and no ranked result reaches
    the caller. *)
Theorem index_vectors_raises
  (match_vectors :
     list (float * float) → DiffractionVectorLibrary → float → float →
     list string → result (list VectorMatch))
  (self : VectorIndexationGenerator.t) (mag_threshold angle_threshold : float)
  (keys : list string) :
  VectorIndexationGenerator.index_vectors match_vectors self mag_threshold
    angle_threshold keys
  = match outcome (signal_map (E := Empty_set)
                     (λ v, quiet (match_vectors v
                                    (VectorIndexationGenerator.library self)
                                    mag_threshold angle_threshold keys))
                     (VectorIndexationGenerator.vectors self)) with
    | Ok _ => Raise (NameError "VectorMatchingResults")
    | Raise e => Raise e
    end
  ∧ ∃ e, VectorIndexationGenerator.index_vectors match_vectors self
           mag_threshold angle_threshold keys = Raise e.
Proof.
  unfold VectorIndexationGenerator.index_vectors.
  rewrite load_global_match_vectors. simpl.
  destruct (outcome (signal_map _ _)) as [indexation|e]; simpl; eauto.
Qed.

(** C5: on the vector example [index_vectors] raises [NameError] before
    [transfer_navigation_axes] is reached, so no result carries the
    calibration of the input; [correlate], on the template example,
    returns results with the navigation axes of its input signal. *)
Theorem index_vectors_transfers_no_axes :
  VectorIndexationGenerator.index_vectors no_match vector_example 0.1 1 []
  = Raise (NameError "VectorMatchingResults")
  ∧ outcome (IndexationGenerator.correlate (correlate_library clipped_overlap)
               template_example 3 ["A"; "B"] None)
    = Ok template_example_result
  ∧ calibration <$> Signal.navigation_axes template_example_result
    = calibration
        <$> Signal.navigation_axes (IndexationGenerator.signal template_example).
Proof. by vm_compute. Qed.

(** * Part III: further properties of the code *)

(** ** The loop of [index_peaks] as a map *)

Lemma for_range_map_from {A B C} (body : list B → nat → result (list B))
  (f : A → result C) (g : C → B) (z : B) (xs : list A) :
  (∀ ix i x, xs !! i = Some x →
     body ix i = c ← f x; Ok (<[i := g c]> ix)) →
  ∀ rest done cs, xs = done ++ rest → length cs = length done →
    for_range body ((g <$> cs) ++ replicate (length rest) z)
              (seq (length done) (length rest))
    = (λ cs' : list C, g <$> (cs ++ cs')) <$> map_result f rest.
Proof.
  intros Hbody rest. induction rest as [|x rest IH]; intros done cs -> Hlen.
  - simpl. by rewrite !app_nil_r.
  - simpl. rewrite (Hbody _ _ x) by (by rewrite list_lookup_middle).
    destruct (f x) as [c|e]; simpl; [|done].
    replace (length done) with (length (g <$> cs) + 0)%nat at 1
      by (rewrite length_fmap; lia).
    rewrite insert_app_r. simpl.
    specialize (IH (done ++ [x]) (cs ++ [c])).
    rewrite !length_app, fmap_app, !Nat.add_1_r in IH. simpl in IH.
    rewrite <- !app_assoc in IH. simpl in IH.
    rewrite IH by (by rewrite ?Hlen).
    destruct (map_result f rest) as [cs'|e]; simpl; [|done].
    by rewrite <- app_assoc.
Qed.

Lemma for_range_map {A B C} (body : list B → nat → result (list B))
  (f : A → result C) (g : C → B) (z : B) (xs : list A) :
  (∀ ix i x, xs !! i = Some x →
     body ix i = c ← f x; Ok (<[i := g c]> ix)) →
  for_range body (replicate (length xs) z) (seq 0 (length xs))
  = (λ cs : list C, g <$> cs) <$> map_result f xs.
Proof.
  intros Hbody.
  by apply (for_range_map_from body f g z xs Hbody xs [] []).
Qed.

(** Whatever the table, [index_peaks] is the loop body mapped over the
    magnitudes. *)
Lemma index_peaks_map (self : ProfileIndexationGenerator.t) (tolerance : float) :
  ProfileIndexationGenerator.index_peaks self tolerance
  = (λ es : list PeakIndexation, ObjPeak <$> es)
      <$> map_result
            (peak_result (ProfileIndexationGenerator.simulation self) tolerance)
            (ProfileIndexationGenerator.magnitudes self).
Proof.
  unfold ProfileIndexationGenerator.index_peaks.
  rewrite load_global_np. simpl.
  apply (for_range_map _ (peak_result _ tolerance) ObjPeak).
  intros ix i m Hm. rewrite (getitem_lookup _ _ _ Hm). simpl.
  unfold peak_result. fold (deviation m).
  destruct (take_at (ProfileSimulation.hkls _) _) as [hkls|]; simpl; [|done].
  by destruct (take_at _ _).
Qed.

Lemma map_result_app {A B} (f : A → result B) (l1 l2 : list A) :
  map_result f (l1 ++ l2)
  = ys1 ← map_result f l1; ys2 ← map_result f l2; Ok (ys1 ++ ys2).
Proof.
  induction l1 as [|x l1 IH]; simpl.
  - by destruct (map_result f l2).
  - destruct (f x) as [y|]; simpl; [|done]. rewrite IH.
    destruct (map_result f l1) as [ys1|]; simpl; [|done].
    by destruct (map_result f l2).
Qed.

Lemma map_result_Ok {A B} (f : A → result B) (l : list A) (ys : list B) :
  map_result f l = Ok ys ↔ Forall2 (λ x y, f x = Ok y) l ys.
Proof.
  revert ys. induction l as [|x l IH]; intros ys; simpl.
  - split; [intros [= <-]; constructor | by intros ->%Forall2_nil_inv_l].
  - split.
    + destruct (f x) as [y|] eqn:Hy; simpl; [|done].
      destruct (map_result f l) as [ys'|]; simpl; [|done].
      intros [= <-]. constructor; [done|]. by apply IH.
    + intros (y & ys' & Hy & Hys & ->)%Forall2_cons_inv_l.
      rewrite Hy. simpl. apply IH in Hys. by rewrite Hys.
Qed.

Lemma map_result_Raise {A B} (f : A → result B) (l : list A) (e : PyError) :
  map_result f l = Raise e → ∃ x, x ∈ l ∧ f x = Raise e.
Proof.
  induction l as [|x l IH]; simpl; [done|].
  destruct (f x) as [y|e'] eqn:Hx; simpl.
  - destruct (map_result f l) as [ys|e'']; simpl; [done|].
    intros [= ->]. destruct IH as (x' & ? & ?); [done|].
    exists x'. split; [by right|done].
  - intros [= ->]. exists x. split; [by left|done].
Qed.

Lemma map_result_total {A B} (f : A → result B) (l : list A) :
  (∃ ys, map_result f l = Ok ys) ∨ (∃ x e, x ∈ l ∧ f x = Raise e).
Proof.
  destruct (map_result f l) as [ys|e] eqn:H; [by left; eauto|].
  right. apply map_result_Raise in H as (x & ? & ?). eauto.
Qed.

(** X1: indexing a concatenation of magnitude lists is indexing each list
    and concatenating the results; the first list that raises makes the
    whole call raise. *)
Theorem index_peaks_app (self : ProfileIndexationGenerator.t)
  (mags1 mags2 : list float) (tolerance : float) :
  ProfileIndexationGenerator.index_peaks
    (with_magnitudes self (mags1 ++ mags2)) tolerance
  = out1 ← ProfileIndexationGenerator.index_peaks
             (with_magnitudes self mags1) tolerance;
    out2 ← ProfileIndexationGenerator.index_peaks
             (with_magnitudes self mags2) tolerance;
    Ok (out1 ++ out2).
Proof.
  rewrite !index_peaks_map. simpl. rewrite map_result_app.
  destruct (map_result _ mags1) as [es1|]; simpl; [|done].
  destruct (map_result _ mags2) as [es2|]; simpl; [|done].
  by rewrite fmap_app.
Qed.

(** ** Index errors *)

Lemma take_at_Ok {A} (arr : list A) (idx : list nat) :
  Forall (λ j, j < length arr) idx → ∃ xs, take_at arr idx = Ok xs.
Proof.
  induction 1 as [|j idx Hj _ [xs IH]]; simpl; [by eexists|].
  destruct (lookup_lt_is_Some_2 arr j Hj) as [x Hx].
  rewrite (getitem_lookup _ _ _ Hx), IH. simpl. by eexists.
Qed.

Lemma take_at_Raise {A} (arr : list A) (idx : list nat) (e : PyError) :
  take_at arr idx = Raise e → e = IndexError ∧ ∃ j, j ∈ idx ∧ length arr ≤ j.
Proof.
  induction idx as [|j idx IH]; simpl; [done|]. unfold getitem.
  destruct (arr !! j) as [x|] eqn:Hx; simpl.
  - destruct (take_at arr idx) as [xs|e']; simpl; [done|].
    intros [= ->]. destruct IH as (-> & j' & ? & ?); [done|].
    split; [done|]. exists j'. split; [by right|done].
  - intros [= <-]. split; [done|]. exists j. split; [by left|].
    by apply lookup_ge_None.
Qed.

Lemma take_at_out_of_bounds {A} (arr : list A) (idx : list nat) (j : nat) :
  j ∈ idx → length arr ≤ j → take_at arr idx = Raise IndexError.
Proof.
  intros Hj Hlen. destruct (take_at arr idx) as [xs|e] eqn:Ht.
  - apply take_at_Forall2 in Ht.
    apply list_elem_of_lookup in Hj as [k Hk].
    destruct (Forall2_lookup_l _ _ _ _ _ Ht Hk) as (x & _ & Hx).
    apply lookup_lt_Some in Hx. lia.
  - by apply take_at_Raise in Ht as [-> _].
Qed.

Lemma take_at_length {A} (arr : list A) (idx : list nat) (xs : list A) :
  take_at arr idx = Ok xs → length xs = length idx.
Proof. intros Ht%take_at_Forall2. symmetry. by eapply Forall2_length. Qed.

(** The positions [np.where] selects in the mask of magnitude [m]. *)
Lemma qualifying_position (tolerance m : float) (sim_mags : list float)
  (j : nat) :
  j ∈ np_where ((λ d, d <? tolerance) <$> (deviation m <$> sim_mags))
  ↔ ∃ s, sim_mags !! j = Some s ∧ (deviation m s <? tolerance) = true.
Proof.
  unfold np_where. rewrite where_from_elem. split.
  - intros (k & -> & Hk). simpl. rewrite !list_lookup_fmap in Hk.
    destruct (sim_mags !! k) as [s|]; [|done]. simpl in Hk.
    exists s. split; [done|]. congruence.
  - intros (s & Hs & Hd). exists j. split; [done|].
    by rewrite !list_lookup_fmap, Hs; simpl; rewrite Hd.
Qed.

Lemma peak_result_Raise (simulation : ProfileSimulation.t)
  (tolerance m : float) (e : PyError) :
  peak_result simulation tolerance m = Raise e →
  e = IndexError
  ∧ ∃ j s, ProfileSimulation.magnitudes simulation !! j = Some s
           ∧ (deviation m s <? tolerance) = true
           ∧ length (ProfileSimulation.hkls simulation) ≤ j.
Proof.
  unfold peak_result.
  destruct (take_at (ProfileSimulation.hkls simulation) _) as [hkls|e'] eqn:Hh;
    simpl.
  - rewrite take_at_where by (by rewrite !length_fmap). done.
  - intros [= ->]. apply take_at_Raise in Hh as (-> & j & Hj & Hlen).
    split; [done|]. apply qualifying_position in Hj as (s & ? & ?). eauto.
Qed.

Lemma peak_result_out_of_bounds (simulation : ProfileSimulation.t)
  (tolerance m s : float) (j : nat) :
  ProfileSimulation.magnitudes simulation !! j = Some s →
  (deviation m s <? tolerance) = true →
  length (ProfileSimulation.hkls simulation) ≤ j →
  peak_result simulation tolerance m = Raise IndexError.
Proof.
  intros Hs Hd Hlen. unfold peak_result.
  rewrite (take_at_out_of_bounds (ProfileSimulation.hkls simulation) _ j);
    [reflexivity| |exact Hlen].
  apply qualifying_position. eauto.
Qed.

(** X2: [index_peaks] raises nothing but [IndexError], and raises it
    exactly when some measured magnitude is within tolerance of a library
    magnitude whose position has no entry in the array of Miller
    indices. *)
Theorem index_peaks_index_error (self : ProfileIndexationGenerator.t)
  (tolerance : float) :
  let simulation := ProfileIndexationGenerator.simulation self in
  (∀ e, ProfileIndexationGenerator.index_peaks self tolerance = Raise e →
        e = IndexError)
  ∧ (ProfileIndexationGenerator.index_peaks self tolerance = Raise IndexError
     ↔ ∃ m j s,
         m ∈ ProfileIndexationGenerator.magnitudes self
         ∧ ProfileSimulation.magnitudes simulation !! j = Some s
         ∧ (deviation m s <? tolerance) = true
         ∧ length (ProfileSimulation.hkls simulation) ≤ j).
Proof.
  intros simulation. rewrite index_peaks_map. fold simulation.
  assert (∀ e, (λ es : list PeakIndexation, ObjPeak <$> es)
                 <$> map_result (peak_result simulation tolerance)
                       (ProfileIndexationGenerator.magnitudes self) = Raise e →
               e = IndexError
               ∧ ∃ m j s,
                   m ∈ ProfileIndexationGenerator.magnitudes self
                   ∧ ProfileSimulation.magnitudes simulation !! j = Some s
                   ∧ (deviation m s <? tolerance) = true
                   ∧ length (ProfileSimulation.hkls simulation) ≤ j) as Hraise.
  { intros e.
    destruct (map_result _ _) as [es|e'] eqn:Hmap; simpl; [done|].
    intros [= ->]. apply map_result_Raise in Hmap as (m & Hm & Hr).
    apply peak_result_Raise in Hr as (-> & j & s & ? & ? & ?).
    split; [done|]. by exists m, j, s. }
  split; [intros e He; by apply Hraise in He as [-> _]|].
  split; [intros He; by apply Hraise in He as [_ ?]|].
  intros (m & j & s & Hm & Hs & Hd & Hlen).
  destruct (map_result _ _) as [es|e] eqn:Hmap; simpl.
  - apply map_result_Ok in Hmap.
    apply list_elem_of_lookup in Hm as [i Hi].
    destruct (Forall2_lookup_l _ _ _ _ _ Hmap Hi) as (y & _ & Hy).
    by rewrite (peak_result_out_of_bounds _ _ _ _ _ Hs Hd Hlen) in Hy.
  - apply map_result_Raise in Hmap as (m' & _ & Hr).
    by apply peak_result_Raise in Hr as [-> _].
Qed.

Lemma index_peaks_index_error_witness :
  ProfileIndexationGenerator.index_peaks short_table_example 2.0
  = Raise IndexError.
Proof.
  apply (proj2 (index_peaks_index_error short_table_example 2.0)).
  exists 3.00, 2%nat, 3.00. repeat split; try reflexivity.
  - right. left.
  - simpl. lia.
Defined.

(** ** What a returned indexation looks like *)

Lemma np_compress_elem {A} (P : A → bool) (l : list A) (x : A) :
  x ∈ np_compress (P <$> l) l → P x = true.
Proof.
  induction l as [|y l IH]; simpl; [by intros ?%elem_of_nil|].
  destruct (P y) eqn:Hy; [|done].
  intros [->|?]%elem_of_cons; auto.
Qed.

Lemma np_compress_lookup {A} (mask : list bool) (arr : list A) (j : nat)
  (x : A) :
  mask !! j = Some true → arr !! j = Some x → x ∈ np_compress mask arr.
Proof.
  revert arr j. induction mask as [|b mask IH]; intros [|y arr] [|j];
    simpl; try done.
  - intros [= ->] [= ->]. left.
  - intros Hm Hx. destruct b; [right|]; by eapply IH.
Qed.

(** A deviation that is below some tolerance is not a NaN, and being an
    absolute value it is not below zero. *)
Lemma deviation_ltb_nonneg (m s t : float) :
  (deviation m s <? t) = true → (0 <=? deviation m s) = true.
Proof.
  unfold deviation. rewrite ltb_spec, leb_spec, abs_spec, SFltb_lex, SFleb_lex.
  intros (ka & kt & Ha & _ & _). exists (0, 0, 0)%Z, ka.
  split; [reflexivity|]. split; [done|]. by apply abs_nonneg in Ha.
Qed.

Lemma peak_result_Ok (simulation : ProfileSimulation.t)
  (tolerance m : float) (e : PeakIndexation) :
  peak_result simulation tolerance m = Ok e →
  peak_mag e = m
  ∧ length (peak_hkls e) = length (peak_diffs e)
  ∧ peak_diffs e
    = np_compress
        ((λ d, d <? tolerance)
           <$> (deviation m <$> ProfileSimulation.magnitudes simulation))
        (deviation m <$> ProfileSimulation.magnitudes simulation)
  ∧ Forall2 (λ j h, ProfileSimulation.hkls simulation !! j = Some h)
            (np_where
               ((λ d, d <? tolerance)
                  <$> (deviation m <$> ProfileSimulation.magnitudes simulation)))
            (peak_hkls e).
Proof.
  unfold peak_result.
  destruct (take_at (ProfileSimulation.hkls simulation) _) as [hkls|] eqn:Hh;
    simpl; [|done].
  destruct (take_at (deviation m <$> _) _) as [diffs|] eqn:Hd; simpl; [|done].
  intros [= <-]. simpl. split; [done|].
  split; [by rewrite (take_at_length _ _ _ Hh), (take_at_length _ _ _ Hd)|].
  split; [|by apply take_at_Forall2].
  rewrite take_at_where in Hd by (by rewrite !length_fmap). congruence.
Qed.

(** X3: in whatever [index_peaks] returns there is one entry per measured
    magnitude, in order; each entry carries as many Miller indices as
    deviations, and every deviation it carries is at least zero and
    strictly below the tolerance. *)
Theorem index_peaks_returned_entries (self : ProfileIndexationGenerator.t)
  (tolerance : float) (out : list PyObj) :
  ProfileIndexationGenerator.index_peaks self tolerance = Ok out →
  Forall2 (λ m o, ∃ e,
             o = ObjPeak e
             ∧ peak_mag e = m
             ∧ length (peak_hkls e) = length (peak_diffs e)
             ∧ Forall (λ d, (0 <=? d) = true ∧ (d <? tolerance) = true)
                      (peak_diffs e))
          (ProfileIndexationGenerator.magnitudes self) out.
Proof.
  rewrite index_peaks_map.
  destruct (map_result _ _) as [es|] eqn:Hmap; simpl; [|done].
  intros [= <-]. apply map_result_Ok in Hmap.
  apply Forall2_fmap_r. eapply Forall2_impl; [exact Hmap|].
  intros m e (Hm & Hlen & Hdiffs & _)%peak_result_Ok. exists e.
  split; [done|]. split; [done|]. split; [done|].
  rewrite Hdiffs. apply Forall_forall. intros d Hd.
  apply (np_compress_elem (λ d, d <? tolerance)) in Hd as Hlt.
  split; [|done].
  assert (d ∈ deviation m
            <$> ProfileSimulation.magnitudes
                  (ProfileIndexationGenerator.simulation self)) as Hin.
  { revert Hd. generalize ((λ d, d <? tolerance)
                             <$> (deviation m
                                    <$> ProfileSimulation.magnitudes
                                          (ProfileIndexationGenerator.simulation self))).
    generalize (deviation m
                  <$> ProfileSimulation.magnitudes
                        (ProfileIndexationGenerator.simulation self)).
    intros arr mask. revert arr.
    induction mask as [|b mask IH]; intros [|y arr]; simpl;
      try (by intros ?%elem_of_nil).
    destruct b; [intros [->|?]%elem_of_cons; [left|right; auto]|].
    intros ?. right. auto. }
  apply list_elem_of_fmap in Hin as (s & -> & _).
  by eapply deviation_ltb_nonneg.
Qed.

Lemma index_peaks_returned_entries_witness :
  Forall2 (λ m o, ∃ e,
             o = ObjPeak e
             ∧ peak_mag e = m
             ∧ length (peak_hkls e) = length (peak_diffs e)
             ∧ Forall (λ d, (0 <=? d) = true ∧ (d <? 2.0) = true)
                      (peak_diffs e))
          [2.00]
          [ObjPeak {| peak_mag := 2.00; peak_hkls := [(1, 0, 0)%Z];
                      peak_diffs := [abs (1.98 - 2.00) / 2.00 * 100] |}].
Proof.
  apply (index_peaks_returned_entries profile_example 2.0).
  vm_compute. reflexivity.
Defined.

(** ** Degenerate numbers *)

Lemma deviation_not_finite (m s t : float) :
  (abs m <? infinity) = false → (deviation m s <? t) = false.
Proof.
  unfold deviation.
  rewrite !ltb_spec, !abs_spec, mul_spec, div_spec, sub_spec.
  change (Prim2SF infinity) with (S754_infinity false).
  change (Prim2SF 100) with (S754_finite false 7036874417766400 (-46)).
  destruct (Prim2SF m) as [[]|[]| |[] ? ?]; try discriminate; intros _;
    destruct (Prim2SF s) as [[]|[]| |[] ? ?]; simpl; try reflexivity.
Qed.

Lemma ltb_nan_r (d t : float) : (t =? t) = false → (d <? t) = false.
Proof.
  rewrite FloatAxioms.eqb_spec, ltb_spec.
  destruct (Prim2SF t) as [[]|[]| |[] mt et]; simpl; try discriminate;
    try (by destruct (Prim2SF d) as [[]|[]| |[] ? ?]).
  - unfold SFeqb. simpl. rewrite Z.compare_refl.
    change (PosDef.Pos.compare_cont Eq mt mt) with (Pos.compare mt mt).
    by rewrite Pos.compare_refl.
  - unfold SFeqb. simpl. rewrite Z.compare_refl.
    change (PosDef.Pos.compare_cont Eq mt mt) with (Pos.compare mt mt).
    by rewrite Pos.compare_refl.
Qed.

(** X4: a measured magnitude that is an infinity or a NaN never makes
    [index_peaks] raise on a magnitude/hkl table: every one of its
    deviations is a NaN, so its entry carries no candidate. *)
Theorem index_peaks_not_finite_magnitude (self : ProfileIndexationGenerator.t)
  (tolerance : float) :
  well_formed (ProfileIndexationGenerator.simulation self) →
  ∃ out,
    ProfileIndexationGenerator.index_peaks self tolerance = Ok out
    ∧ ∀ i m, ProfileIndexationGenerator.magnitudes self !! i = Some m →
        (abs m <? infinity) = false →
        out !! i
        = Some (ObjPeak {| peak_mag := m; peak_hkls := []; peak_diffs := [] |}).
Proof.
  intros Hwf. eexists. split; [by apply index_peaks_well_formed|].
  intros i m Hm Hinf. rewrite list_lookup_fmap, Hm. simpl. do 2 f_equal.
  unfold indexed_peak.
  rewrite !np_compress_all_false; [done| |];
    apply Forall_fmap, Forall_fmap, Forall_forall; intros s _; simpl;
    by apply deviation_not_finite.
Qed.

Lemma index_peaks_not_finite_magnitude_witness :
  ∃ out,
    ProfileIndexationGenerator.index_peaks
      (with_magnitudes profile_example [infinity; nan]) 2.0 = Ok out
    ∧ ∀ i m, [infinity; nan] !! i = Some m →
        (abs m <? infinity) = false →
        out !! i
        = Some (ObjPeak {| peak_mag := m; peak_hkls := []; peak_diffs := [] |}).
Proof.
  apply (index_peaks_not_finite_magnitude
           (with_magnitudes profile_example [infinity; nan]) 2.0).
  reflexivity.
Defined.

(** X5: with a NaN tolerance [index_peaks] raises on no input and returns
    no candidate for any measured magnitude: no deviation compares below a
    NaN. *)
Theorem index_peaks_nan_tolerance (self : ProfileIndexationGenerator.t)
  (tolerance : float) :
  (tolerance =? tolerance) = false →
  ProfileIndexationGenerator.index_peaks self tolerance
  = Ok ((λ m, ObjPeak {| peak_mag := m; peak_hkls := []; peak_diffs := [] |})
          <$> ProfileIndexationGenerator.magnitudes self).
Proof.
  intros Htol.
  assert (∀ m, Forall (λ b, b = false)
                 ((λ d, d <? tolerance)
                    <$> (deviation m
                           <$> ProfileSimulation.magnitudes
                                 (ProfileIndexationGenerator.simulation self))))
    as Hnone.
  { intros m. apply Forall_fmap, Forall_fmap, Forall_forall. intros s _.
    simpl. by apply ltb_nan_r. }
  rewrite index_peaks_indexed by (intros m _; right; apply Hnone).
  f_equal. apply list_fmap_ext. intros _ m _. simpl. f_equal.
  unfold indexed_peak. by rewrite !np_compress_all_false.
Qed.

Lemma index_peaks_nan_tolerance_witness :
  ProfileIndexationGenerator.index_peaks short_table_example nan
  = Ok [ObjPeak {| peak_mag := 2.00; peak_hkls := []; peak_diffs := [] |};
        ObjPeak {| peak_mag := 3.00; peak_hkls := []; peak_diffs := [] |}].
Proof.
  apply (index_peaks_nan_tolerance short_table_example nan). reflexivity.
Defined.

(** ** Exact matches *)

Lemma finite_nonzero_inv (m : float) :
  finite_nonzero m → ∃ s mm e, Prim2SF m = S754_finite s mm e.
Proof.
  unfold finite_nonzero. rewrite !ltb_spec, !abs_spec.
  change (Prim2SF 0) with (S754_zero false).
  change (Prim2SF infinity) with (S754_infinity false).
  destruct (Prim2SF m) as [[]|[]| |s mm e]; intros [H0 Hinf];
    try discriminate; eauto.
Qed.

(** A library magnitude equal to the measured one deviates by exactly
    zero. *)
Lemma deviation_exact (m : float) : finite_nonzero m → deviation m m = 0.
Proof.
  intros (s & mm & e & Hm)%finite_nonzero_inv. unfold deviation.
  apply Prim2SF_inj.
  rewrite abs_spec, mul_spec, div_spec, sub_spec, Hm.
  change (Prim2SF 0) with (S754_zero false).
  change (Prim2SF 100) with (S754_finite false 7036874417766400 (-46)).
  unfold SF64sub, SFsub. cbv zeta. rewrite Z.sub_diag.
  cbn [binary_normalize]. by destruct s.
Qed.

(** X6: on a magnitude/hkl table, a library magnitude equal to a measured
    magnitude that is finite and not zero is retained at every tolerance
    above zero, with its Miller index and a deviation of exactly zero. *)
Theorem index_peaks_exact_match (self : ProfileIndexationGenerator.t)
  (tolerance m : float) (i j : nat) (h : HKL) :
  let simulation := ProfileIndexationGenerator.simulation self in
  well_formed simulation →
  ProfileIndexationGenerator.magnitudes self !! i = Some m →
  ProfileSimulation.magnitudes simulation !! j = Some m →
  ProfileSimulation.hkls simulation !! j = Some h →
  finite_nonzero m →
  (0 <? tolerance) = true →
  ∃ out e,
    ProfileIndexationGenerator.index_peaks self tolerance = Ok out
    ∧ out !! i = Some (ObjPeak e)
    ∧ (h, 0) ∈ peak_candidates e.
Proof.
  intros simulation Hwf Hi Hj Hh Hm Htol. do 2 eexists.
  split; [by apply index_peaks_well_formed|].
  split; [by rewrite list_lookup_fmap, Hi|].
  unfold peak_candidates, indexed_peak. simpl. rewrite np_compress_zip.
  apply (np_compress_lookup _ _ j).
  - fold simulation. rewrite !list_lookup_fmap, Hj. simpl.
    by rewrite (deviation_exact m Hm), Htol.
  - apply lookup_zip_Some. fold simulation. split; [done|].
    rewrite list_lookup_fmap, Hj. simpl. by rewrite (deviation_exact m Hm).
Qed.

Lemma index_peaks_exact_match_witness :
  ∃ out e,
    ProfileIndexationGenerator.index_peaks
      (with_magnitudes profile_example [3.00]) 0.5 = Ok out
    ∧ out !! 0%nat = Some (ObjPeak e)
    ∧ ((1, 1, 0)%Z, 0) ∈ peak_candidates e.
Proof.
  apply (index_peaks_exact_match (with_magnitudes profile_example [3.00])
           0.5 3.00 0 1 (1, 1, 0)%Z); try reflexivity.
  split; reflexivity.
Defined.

(** ** [Diffraction2D.find_peaks] *)

Section FindPeaksFacts.
Context {Args : Type}.
Variable run_finder :
  PeakFinder → Args → Pattern → result (list (float * float)).
Variable peaks_as_gvectors :
  list (float * float) → list float → float → result (list (float * float)).
Variable map_axes : list Axis.t → list Axis.t.

Lemma method_dict_None (method : string) :
  method_dict !! method = None
  ↔ method ∉ ["zaefferer"; "stat"; "laplacian_of_gaussians";
              "difference_of_gaussians"; "xc"].
Proof. unfold method_dict. by rewrite <- not_elem_of_list_to_map. Qed.

(** X7: [find_peaks] raises [NotImplementedError] exactly for a method
    name outside the five it knows; it then has run no peak finder, and
    the message quotes the name. *)
Theorem find_peaks_unknown_method (self : Diffraction2D.t) (method : string)
  (args : Args) :
  (method ∉ ["zaefferer"; "stat"; "laplacian_of_gaussians";
             "difference_of_gaussians"; "xc"]
   ↔ ∃ msg, find_peaks run_finder peaks_as_gvectors map_axes self method args
            = NotImplementedError msg)
  ∧ ∀ msg, find_peaks run_finder peaks_as_gvectors map_axes self method args
           = NotImplementedError msg →
           msg = "The method `" +:+ method
                 +:+ "` is not implemented. See documentation for available implementations.".
Proof.
  rewrite <- method_dict_None. unfold find_peaks.
  destruct (method_dict !! method) as [f|]; split.
  - split; [done|]. by intros [msg ?].
  - done.
  - split; [eauto|done].
  - by intros msg [= <-].
Qed.

Lemma outcome_bind {E A B} (t : traced E A) (k : A → traced E B) :
  outcome (t ≫= k)
  = match outcome t with
    | Ok a => outcome (k a)
    | Raise e => Raise e
    end.
Proof. unfold mbind, traced_bind. by destruct (outcome t). Qed.

Lemma events_bind {E A B} (t : traced E A) (k : A → traced E B) (a : A) :
  outcome t = Ok a → events (t ≫= k) = events t ++ events (k a).
Proof. unfold mbind, traced_bind. by intros ->. Qed.

Lemma events_quiet_chain {E A B} (r : result A) (k : A → traced E B) (a : A) :
  r = Ok a → events (quiet r ≫= k) = events (k a).
Proof. intros ->. by rewrite quiet_bind. Qed.

Lemma getitem_short {A} (l : list A) (i : nat) :
  length l ≤ i → getitem l i = Raise IndexError.
Proof. intros Hl. unfold getitem. by rewrite (lookup_ge_None_2 l i Hl). Qed.

Lemma getitem_Ok {A} (l : list A) (i : nat) (x : A) :
  getitem l i = Ok x → l !! i = Some x.
Proof. unfold getitem. destruct (l !! i); by intros [= ->]. Qed.

(** The events of a run of one finder over the positions that returns. *)
Lemma map_positions_single_events {A B E} (f : A → result B) (ev : E)
  (items : list A) :
  ∀ p ys, outcome (map_positions (λ z, Traced [ev] (f z)) p items) = Ok ys →
    events (map_positions (λ z, Traced [ev] (f z)) p items)
    = (λ q, (q, ev)) <$> seq p (length items).
Proof.
  induction items as [|x items IH]; intros p ys; simpl; [done|].
  unfold mbind, traced_bind, at_position; simpl.
  destruct (f x) as [y|]; simpl; [|done].
  destruct (outcome (map_positions _ (S p) items)) as [ys'|] eqn:Hys;
    simpl; [|done].
  intros _. by rewrite app_nil_r, (IH _ _ Hys).
Qed.

(** X8: on a signal with fewer than two navigation axes [find_peaks]
    returns nothing, whatever the peak finder does: the method reads the
    first two navigation axes once the patterns have been processed, and
    raises. *)
Theorem find_peaks_needs_two_navigation_axes (self : Diffraction2D.t)
  (method : string) (args : Args) (f : PeakFinder) :
  method_dict !! method = Some f →
  length (Diffraction2D.navigation_axes self) < 2 →
  ∃ run e,
    find_peaks run_finder peaks_as_gvectors map_axes self method args = Ran run
    ∧ outcome run = Raise e.
Proof.
  intros Hf Hnav. unfold find_peaks. rewrite Hf. cbv zeta.
  match goal with |- ∃ run e, Ran ?t = Ran run ∧ _ => exists t end.
  match goal with |- ∃ e, _ ∧ outcome ?t = Raise e =>
    destruct (outcome t) as [dv|e] eqn:Hrun end;
    [|exists e; split; reflexivity].
  exfalso. revert Hrun.
  rewrite (getitem_short (Diffraction2D.navigation_axes self) 1) by lia.
  unfold mbind, traced_bind, quiet. simpl.
  repeat match goal with
         | |- context [match ?r with Ok _ => _ | Raise _ => _ end] =>
             destruct r; simpl
         end; done.
Qed.

Lemma bind_Ok_inv {E A B} (t : traced E A) (k : A → traced E B) (b : B) :
  outcome (t ≫= k) = Ok b →
  ∃ a, outcome t = Ok a ∧ outcome (k a) = Ok b
       ∧ events (t ≫= k) = events t ++ events (k a).
Proof.
  unfold mbind, traced_bind. destruct (outcome t) as [a|]; [|done].
  simpl. eauto.
Qed.

(** X9: when [find_peaks] returns, the finder its method names has been
    run once on every pattern, in grid order, and there is one list of
    vectors per pattern; the first two navigation axes of the result are
    named "x" and "y", in units "nm", with the scales of the first two
    navigation axes of the signal (their names and units are not carried
    over); the pixel calibration is the scale of the first signal axis and
    the detector shape is the signal shape. *)
Theorem find_peaks_returned_vectors (self : Diffraction2D.t) (method : string)
  (args : Args) (run : traced (nat * PeakFinder) DiffractionVectors.t)
  (dv : DiffractionVectors.t) :
  find_peaks run_finder peaks_as_gvectors map_axes self method args = Ran run →
  outcome run = Ok dv →
  ∃ f nav0 nav1 sig0 x y,
    method_dict !! method = Some f
    ∧ events run
      = (λ p, (p, f)) <$> seq 0 (length (Diffraction2D.data self))
    ∧ length (DiffractionVectors.data dv) = length (Diffraction2D.data self)
    ∧ Diffraction2D.navigation_axes self !! 0%nat = Some nav0
    ∧ Diffraction2D.navigation_axes self !! 1%nat = Some nav1
    ∧ Diffraction2D.signal_axes self !! 0%nat = Some sig0
    ∧ DiffractionVectors.navigation_axes dv !! 0%nat = Some x
    ∧ DiffractionVectors.navigation_axes dv !! 1%nat = Some y
    ∧ (Axis.name x, Axis.units x, Axis.scale x)
      = ("x", "nm", Axis.scale nav0)
    ∧ (Axis.name y, Axis.units y, Axis.scale y)
      = ("y", "nm", Axis.scale nav1)
    ∧ DiffractionVectors.pixel_calibration dv = Axis.scale sig0
    ∧ DiffractionVectors.detector_shape dv = Diffraction2D.signal_shape self.
Proof.
  unfold find_peaks. destruct (method_dict !! method) as [f|]; [|done].
  intros [= <-]. cbv zeta. intros Hrun.
  assert (∃ found cal vectors pixel x y nav0 nav1,
            outcome (map_positions
                       (λ z, Traced [f] (run_finder f args z)) 0
                       (Diffraction2D.data self)) = Ok found
            ∧ getitem (Diffraction2D.signal_axes self) 0 = Ok cal
            ∧ map_result
                (λ z, peaks_as_gvectors z
                        ((λ n, float_of_Z (Z.of_nat n) / 2 - 0.5)
                           <$> Diffraction2D.signal_shape self)
                        (Axis.scale cal)) found = Ok vectors
            ∧ getitem (Diffraction2D.signal_axes self) 0 = Ok pixel
            ∧ getitem (map_axes (Diffraction2D.navigation_axes self)) 0 = Ok x
            ∧ getitem (map_axes (Diffraction2D.navigation_axes self)) 1 = Ok y
            ∧ getitem (Diffraction2D.navigation_axes self) 0 = Ok nav0
            ∧ getitem (Diffraction2D.navigation_axes self) 1 = Ok nav1)
    as (found & cal & vectors & pixel & x & y & nav0 & nav1 & Hfound & Hcal
        & Hvec & Hpixel & Hx & Hy & Hnav0 & Hnav1).
  { apply bind_Ok_inv in Hrun as (found & Hfound & Hrun & _).
    apply bind_Ok_inv in Hrun as (cal & Hcal & Hrun & _).
    apply bind_Ok_inv in Hrun as (vectors & Hvec & Hrun & _).
    apply bind_Ok_inv in Hrun as (pixel & Hpixel & Hrun & _).
    apply bind_Ok_inv in Hrun as (x & Hx & Hrun & _).
    apply bind_Ok_inv in Hrun as (y & Hy & Hrun & _).
    apply bind_Ok_inv in Hrun as (nav0 & Hnav0 & Hrun & _).
    apply bind_Ok_inv in Hrun as (nav1 & Hnav1 & Hrun & _).
    by exists found, cal, vectors, pixel, x, y, nav0, nav1. }
  revert Hrun. unfold mbind, traced_bind, quiet. rewrite Hfound. simpl.
  rewrite Hcal. simpl. rewrite Hvec. simpl. rewrite Hx. simpl.
  rewrite Hy. simpl. rewrite Hnav0. simpl. rewrite Hnav1. simpl.
  intros [= <-]. simpl.
  rewrite (map_positions_single_events _ _ _ _ _ Hfound).
  apply map_positions_outcome in Hfound. apply Forall2_length in Hfound.
  apply map_result_Ok, Forall2_length in Hvec.
  apply getitem_Ok in Hcal, Hx, Hy, Hnav0, Hnav1.
  exists f, nav0, nav1, cal. do 2 eexists.
  split; [done|]. split; [by rewrite !app_nil_r|]. split; [congruence|].
  split; [done|]. split; [done|]. split; [done|].
  split.
  { rewrite list_lookup_insert_ne by done.
    apply list_lookup_insert_eq. by eapply lookup_lt_Some. }
  split.
  { apply list_lookup_insert_eq. rewrite length_insert.
    by eapply lookup_lt_Some. }
  done.
Qed.

End FindPeaksFacts.

Lemma find_peaks_needs_two_navigation_axes_witness :
  ∃ run e,
    find_peaks origin_finder scaled_vectors same_axes line_patterns_example
      "stat" tt = Ran run
    ∧ outcome run = Raise e.
Proof.
  apply (find_peaks_needs_two_navigation_axes origin_finder scaled_vectors
           same_axes line_patterns_example "stat" tt find_peaks_stat).
  - reflexivity.
  - simpl. lia.
Defined.

Lemma find_peaks_returned_vectors_witness :
  ∃ f nav0 nav1 sig0 x y,
    method_dict !! "stat" = Some f
    ∧ events peaks_example_run
      = (λ p, (p, f)) <$> seq 0 (length (Diffraction2D.data patterns_example))
    ∧ length (DiffractionVectors.data peaks_example_vectors)
      = length (Diffraction2D.data patterns_example)
    ∧ Diffraction2D.navigation_axes patterns_example !! 0%nat = Some nav0
    ∧ Diffraction2D.navigation_axes patterns_example !! 1%nat = Some nav1
    ∧ Diffraction2D.signal_axes patterns_example !! 0%nat = Some sig0
    ∧ DiffractionVectors.navigation_axes peaks_example_vectors !! 0%nat = Some x
    ∧ DiffractionVectors.navigation_axes peaks_example_vectors !! 1%nat = Some y
    ∧ (Axis.name x, Axis.units x, Axis.scale x)
      = ("x", "nm", Axis.scale nav0)
    ∧ (Axis.name y, Axis.units y, Axis.scale y)
      = ("y", "nm", Axis.scale nav1)
    ∧ DiffractionVectors.pixel_calibration peaks_example_vectors
      = Axis.scale sig0
    ∧ DiffractionVectors.detector_shape peaks_example_vectors
      = Diffraction2D.signal_shape patterns_example.
Proof.
  apply (find_peaks_returned_vectors origin_finder scaled_vectors same_axes
           patterns_example "stat" tt peaks_example_run peaks_example_vectors).
  - vm_compute. reflexivity.
  - vm_compute. reflexivity.
Defined.

(** ** [Diffraction2D.get_direct_beam_position] *)

(** X10: for a method other than "cross_correlate", "blur" and
    "interpolate" [get_direct_beam_position] returns nothing, whatever the
    method selection does: when the selection returns a function, no
    pattern is processed and the unbound local [shifts] is read. *)
Theorem get_direct_beam_position_other_method {Kwargs : Type}
  (select : string → gmap string BeamFinder → Kwargs → result BeamFinder)
  (run_beam_finder : BeamFinder → Kwargs → Pattern → result (list float))
  (origin_minus :
     list float → Signal.t (list float) → result (Signal.t (list float)))
  (self : Diffraction2D.t) (method : string) (kwargs : Kwargs) :
  method ∉ ["cross_correlate"; "blur"; "interpolate"] →
  get_direct_beam_position select run_beam_finder origin_minus self method
    kwargs
  = match select method beam_method_dict kwargs with
    | Ok _ => Raise (NameError "shifts")
    | Raise e => Raise e
    end.
Proof.
  intros Hmethod. unfold get_direct_beam_position.
  destruct (select method beam_method_dict kwargs) as [mf|e]; simpl; [|done].
  destruct (String.eqb_spec method "cross_correlate") as [->|_].
  { exfalso. apply Hmethod. set_solver. }
  destruct (String.eqb_spec method "blur") as [->|_].
  { exfalso. apply Hmethod. set_solver. }
  destruct (String.eqb_spec method "interpolate") as [->|_].
  { exfalso. apply Hmethod. set_solver. }
  reflexivity.
Qed.

Lemma get_direct_beam_position_other_method_witness :
  get_direct_beam_position lenient_select origin_beam shift_from
    patterns_example "centre_of_mass" tt
  = Raise (NameError "shifts").
Proof.
  apply (get_direct_beam_position_other_method lenient_select origin_beam
           shift_from patterns_example "centre_of_mass" tt).
  intros H. repeat (apply elem_of_cons in H as [H|H]; [discriminate|]).
  by apply elem_of_nil in H.
Defined.
